(** * Acme Data Room front end: API client, root component, Drive file picker,
      file card.

    A shallow embedding of the TypeScript sources

      - [lib/api.ts]                     (module [Api])
      - [lib/utils.ts]                   (module [Utils])
      - [App.tsx]                        (module [App])
      - [components/DriveFilePicker.tsx] (module [DriveFilePicker])
      - [components/FileCard.tsx]        (module [FileCard])

    Asynchronous functions are computations in a state-and-exception monad
    [M]: the state is the React state of the component that runs the handler,
    together with the chronological trace of observable effects (network
    calls, console output, dialogs, prop callbacks).  The browser and the
    backend are an environment [Env] that answers every [fetch] and every
    [confirm] as a function of the history so far.  An [await] is a monadic
    bind: a handler runs to completion before the next event is dispatched. *)

From Stdlib Require Import ZArith String Ascii List DecimalString DecimalZ DecimalPos Lia Bool.
From stdpp Require Import base gmap strings list.

Local Open Scope Z_scope.
Set Warnings "-register-all".

(** ** JavaScript values *)

(** A parsed JSON document.  Numbers are restricted to integers (identifiers,
    sizes and counters are the only numbers these sources handle). *)
Inductive JSON : Type :=
| JNull
| JBool (b : bool)
| JNum (n : Z)
| JStr (s : string)
| JArr (items : list JSON)
| JObj (fields : list (string * JSON)).

(** A JavaScript value: a JSON value or [undefined]. *)
Definition JSVal : Type := option JSON.
Definition undefined : JSVal := None.

Inductive Exn : Type :=
| Error (message : string)
| TypeError (message : string)
| SyntaxError (message : string).

(** Outcome of running a piece of code.  [IllTyped] marks a run that received
    a value outside the TypeScript interface it is declared to have; the
    embedding follows such a run no further. *)
Inductive Result (A : Type) : Type :=
| Ok (a : A)
| Throw (e : Exn)
| IllTyped.
Arguments Ok {A} a.
Arguments Throw {A} e.
Arguments IllTyped {A}.

Module Js.

Definition empty : string := EmptyString.

(** [String(n)] for an integer. *)
Definition string_of_Z (n : Z) : string := NilZero.string_of_int (Z.to_int n).
Definition string_of_nat (n : nat) : string := string_of_Z (Z.of_nat n).

(** Truthiness, as tested by [if (v)], [!v], [v || d] and [v ? a : b]. *)
Definition truthy (v : JSVal) : bool :=
  match v with
  | None => false
  | Some JNull => false
  | Some (JBool b) => b
  | Some (JNum n) => negb (n =? 0)
  | Some (JStr s) => negb (String.eqb s empty)
  | Some (JArr _) => true
  | Some (JObj _) => true
  end.

Definition truthy_string (s : string) : bool := negb (String.eqb s empty).

(** Own property of a parsed object; [JSON.parse] keeps the last of several
    members with one key. *)
Definition obj_get (k : string) (fields : list (string * JSON)) : JSVal :=
  fold_left (fun acc kv => if String.eqb k (fst kv) then Some (snd kv) else acc)
            fields None.

(** [v.k] for the property names read by these sources ([error],
    [authenticated], [files], [auth_url]), none of which is a built-in
    property of a string, number, boolean or array. *)
Definition get_prop (v : JSON) (k : string) : Result JSVal :=
  match v with
  | JNull => Throw (TypeError ("Cannot read properties of null (reading '" +:+ k +:+ "')"))
  | JObj fields => Ok (obj_get k fields)
  | _ => Ok undefined
  end.

(** [String(v)]. *)
Fixpoint to_string (v : JSON) : string :=
  match v with
  | JNull => "null"
  | JBool true => "true"
  | JBool false => "false"
  | JNum n => string_of_Z n
  | JStr s => s
  | JArr items =>
      (fix join (l : list JSON) : string :=
         match l with
         | [] => empty
         | x :: rest =>
             let sx := match x with JNull => empty | _ => to_string x end in
             match rest with
             | [] => sx
             | _ => sx +:+ "," +:+ join rest
             end
         end) items
  | JObj _ => "[object Object]"
  end.

Definition to_string_val (v : JSVal) : string :=
  match v with
  | None => "undefined"
  | Some j => to_string j
  end.

Definition is_space (c : ascii) : bool :=
  let n := nat_of_ascii c in
  ((n =? 32) || (n =? 9) || (n =? 10) || (n =? 11) || (n =? 12) || (n =? 13))%nat.

Fixpoint skip_spaces (s : string) : string :=
  match s with
  | String c rest => if is_space c then skip_spaces rest else s
  | EmptyString => s
  end.

Definition digit_value (c : ascii) : option Z :=
  let n := nat_of_ascii c in
  if ((48 <=? n) && (n <=? 57))%nat then Some (Z.of_nat n - 48)
  else if ((97 <=? n) && (n <=? 102))%nat then Some (Z.of_nat n - 87)
  else if ((65 <=? n) && (n <=? 70))%nat then Some (Z.of_nat n - 55)
  else None.

(** Longest prefix of digits in the given radix; [None] when there is no
    digit at all. *)
Fixpoint digits (radix : Z) (s : string) (acc : option Z) : option Z :=
  match s with
  | String c rest =>
      match digit_value c with
      | Some d =>
          if d <? radix
          then digits radix rest (Some (radix * match acc with Some a => a | None => 0 end + d))
          else acc
      | None => acc
      end
  | EmptyString => acc
  end.

(** [parseInt(s)] with no radix argument; [None] is [NaN].  Leading ASCII
    white space is skipped, a sign and a [0x] prefix are read, and the number
    ends at the first character that is not a digit. *)
Definition parseInt (s : string) : option Z :=
  let s1 := skip_spaces s in
  let '(neg, s2) :=
    match s1 with
    | String "-"%char rest => (true, rest)
    | String "+"%char rest => (false, rest)
    | _ => (false, s1)
    end in
  let r :=
    match s2 with
    | String "0"%char (String "x"%char rest) => digits 16 rest None
    | String "0"%char (String "X"%char rest) => digits 16 rest None
    | _ => digits 10 s2 None
    end in
  match r with
  | Some n => Some (if neg then - n else n)
  | None => None
  end.

(** [s.includes(sub)] *)
Fixpoint includes (s sub : string) : bool :=
  String.prefix sub s ||
  match s with
  | String _ rest => includes rest sub
  | EmptyString => false
  end.

End Js.

(** ** Network, browser and effects *)

Inductive Method : Type := GET | POST | DELETE.

(** A [fetch] call.  The URL is kept as its path and its query pairs before
    percent-encoding ([URLSearchParams], [encodeURIComponent]); the body is
    the value handed to [JSON.stringify]. *)
Record Request : Type := mkRequest {
  req_method : Method;
  req_path : string;
  req_query : list (string * string);
  req_headers : list (string * string);
  req_body : option JSON
}.

(** A [Response]: its status and its body, [None] when the body is not a
    JSON document. *)
Record Response : Type := mkResponse {
  status : Z;
  body : option JSON
}.

(** [res.ok] *)
Definition ok (res : Response) : bool := (200 <=? status res) && (status res <=? 299).

Inductive FetchOutcome : Type :=
| Rejects (e : Exn)
| Resolves (res : Response).

(** Props a component receives from its parent. *)
Inductive Callback : Type := OnClose | OnImport | OnDelete.

(** What a run did to the outside world.  A [fetch] is recorded with the
    answer it received. *)
Inductive Event : Type :=
| EvFetch (req : Request) (answer : FetchOutcome)
| EvConsoleError (msg : string) (e : Exn)
| EvAlert (msg : string)
| EvConfirm (msg : string)
| EvSetLocation (href : JSVal)
| EvWindowOpen (url target : string)
| EvCallback (cb : Callback)
| EvUnhandledRejection (e : Exn).

Record Env : Type := mkEnv {
  net : list Event -> Request -> FetchOutcome;
  confirm_answer : list Event -> string -> bool
}.

Record World (σ : Type) : Type := mkWorld {
  st : σ;
  trace : list Event
}.
Arguments mkWorld {σ} st trace.
Arguments st {σ} w.
Arguments trace {σ} w.

Definition M (σ A : Type) : Type := Env -> World σ -> Result A * World σ.

Section Monad.
Context {σ : Type}.

Definition ret {A} (a : A) : M σ A := fun _ w => (Ok a, w).

Definition bind {A B} (c : M σ A) (k : A -> M σ B) : M σ B :=
  fun env w =>
    match c env w with
    | (Ok a, w1) => k a env w1
    | (Throw e, w1) => (Throw e, w1)
    | (IllTyped, w1) => (IllTyped, w1)
    end.

Definition throw {A} (e : Exn) : M σ A := fun _ w => (Throw e, w).

Definition ill_typed {A} : M σ A := fun _ w => (IllTyped, w).

Definition lift_result {A} (r : Result A) : M σ A := fun _ w => (r, w).

(** [try { c } catch (e) { h e }] *)
Definition try_catch {A} (c : M σ A) (h : Exn -> M σ A) : M σ A :=
  fun env w =>
    match c env w with
    | (Throw e, w1) => h e env w1
    | r => r
    end.

(** [try { c } finally { f }] *)
Definition try_finally {A} (c : M σ A) (f : M σ unit) : M σ A :=
  fun env w =>
    match c env w with
    | (Ok a, w1) =>
        match f env w1 with
        | (Ok _, w2) => (Ok a, w2)
        | (Throw e, w2) => (Throw e, w2)
        | (IllTyped, w2) => (IllTyped, w2)
        end
    | (Throw e, w1) =>
        match f env w1 with
        | (Ok _, w2) => (Throw e, w2)
        | (Throw e', w2) => (Throw e', w2)
        | (IllTyped, w2) => (IllTyped, w2)
        end
    | (IllTyped, w1) => (IllTyped, w1)
    end.

(** A state setter of [useState]. *)
Definition modify (f : σ -> σ) : M σ unit :=
  fun _ w => (Ok tt, mkWorld (f (st w)) (trace w)).

Definition emit (ev : Event) : M σ unit :=
  fun _ w => (Ok tt, mkWorld (st w) (trace w ++ [ev])).

Definition fetch (req : Request) : M σ Response :=
  fun env w =>
    let answer := net env (trace w) req in
    let w1 := mkWorld (st w) (trace w ++ [EvFetch req answer]) in
    match answer with
    | Rejects e => (Throw e, w1)
    | Resolves res => (Ok res, w1)
    end.

(** [res.json()] *)
Definition json (res : Response) : M σ JSON :=
  match body res with
  | Some j => ret j
  | None => throw (SyntaxError "Unexpected token in JSON")
  end.

Definition console_error (msg : string) (e : Exn) : M σ unit := emit (EvConsoleError msg e).
Definition alert (msg : string) : M σ unit := emit (EvAlert msg).
Definition call_prop (cb : Callback) : M σ unit := emit (EvCallback cb).

Definition confirm (msg : string) : M σ bool :=
  fun env w =>
    (Ok (confirm_answer env (trace w) msg), mkWorld (st w) (trace w ++ [EvConfirm msg])).

(** A call of an async function whose promise is dropped: a rejection does
    not reach the caller. *)
Definition no_await {A} (c : M σ A) : M σ unit :=
  fun env w =>
    match c env w with
    | (Ok _, w1) => (Ok tt, w1)
    | (Throw e, w1) => (Ok tt, mkWorld (st w1) (trace w1 ++ [EvUnhandledRejection e]))
    | (IllTyped, w1) => (IllTyped, w1)
    end.

(** A value read at a TypeScript interface. *)
Definition typed {A} (v : option A) : M σ A :=
  match v with
  | Some a => ret a
  | None => ill_typed
  end.

(** Dispatch of a UI event: the handler is the closure of the latest render,
    so it reads the state committed before the event. *)
Definition dispatch {A} (h : σ -> M σ A) : M σ A := fun env w => h (st w) env w.

(** The world once the dispatched handler has settled. *)
Definition after {A} (h : σ -> M σ A) (env : Env) (w : World σ) : World σ :=
  snd (dispatch h env w).

End Monad.

Notation "x <- c ;; k" := (bind c (fun x => k))
  (at level 100, c at next level, right associativity).
Notation "c ;; k" := (bind c (fun _ => k))
  (at level 100, right associativity).

(** The events a run appended to the trace. *)
Definition new_events {σ} (w w' : World σ) : list Event :=
  drop (length (trace w)) (trace w').

Definition fetch_log (evs : list Event) : list (Request * FetchOutcome) :=
  omap (fun ev => match ev with EvFetch r a => Some (r, a) | _ => None end) evs.
Definition fetches (evs : list Event) : list Request := map fst (fetch_log evs).
Definition alerts (evs : list Event) : list string :=
  omap (fun ev => match ev with EvAlert m => Some m | _ => None end) evs.
Definition console_errors (evs : list Event) : list (string * Exn) :=
  omap (fun ev => match ev with EvConsoleError m e => Some (m, e) | _ => None end) evs.
Definition callbacks (evs : list Event) : list Callback :=
  omap (fun ev => match ev with EvCallback c => Some c | _ => None end) evs.
Definition unhandled_rejections (evs : list Event) : list Exn :=
  omap (fun ev => match ev with EvUnhandledRejection e => Some e | _ => None end) evs.

(** An answer on which an API function that checks [res.ok] and parses the
    body returns: a 2xx response with a JSON body. *)
Definition succeeded (answer : FetchOutcome) : bool :=
  match answer with
  | Resolves res => ok res && bool_decide (is_Some (body res))
  | Rejects _ => false
  end.

(** Numbers of successful and of failed calls among the calls of a run. *)
Definition successes (evs : list Event) : nat :=
  length (List.filter succeeded (map snd (fetch_log evs))).
Definition failures (evs : list Event) : nat :=
  length (List.filter (fun a => negb (succeeded a)) (map snd (fetch_log evs))).

(** ** lib/api.ts *)

(** [DriveFile]: a file of the user's Drive, before import. *)
Module DriveFile.
Record t : Type := mk {
  id : string;
  name : string;
  mimeType : string;
  size : option string;
  modifiedTime : option string;
  iconLink : option string;
  thumbnailLink : option string
}.
End DriveFile.

(** [DataroomFile]: a file stored in the data room. *)
Module DataroomFile.
Record t : Type := mk {
  id : Z;
  name : string;
  mime_type : option string;
  size : option Z;
  google_drive_id : string;
  created_at : string
}.
End DataroomFile.

Module Api.
Section Api.
Context {σ : Type}.

Definition API_BASE : string := "/api".

Definition get (path : string) (query : list (string * string)) : Request :=
  mkRequest GET path query [] None.

Definition auth_status_request : Request := get (API_BASE +:+ "/auth/status") [].

Definition getAuthStatus : M σ JSON :=
  res <- fetch auth_status_request ;;
  json res.

Definition auth_login_request : Request := get (API_BASE +:+ "/auth/login") [].

Definition getAuthUrl : M σ JSON :=
  res <- fetch auth_login_request ;;
  json res.

Definition logout_request : Request :=
  mkRequest POST (API_BASE +:+ "/auth/logout") [] [] None.

Definition logout : M σ unit :=
  _ <- fetch logout_request ;;
  ret tt.

(** [if (v) params.set(k, v)] *)
Definition set_if (k : string) (v : option string) (params : list (string * string))
  : list (string * string) :=
  match v with
  | Some s => if Js.truthy_string s then params ++ [(k, s)] else params
  | None => params
  end.

Definition drive_files_request (pageToken query : option string) : Request :=
  let params := set_if "query" query (set_if "pageToken" pageToken []) in
  get (API_BASE +:+ "/drive/files") params.

Definition listDriveFiles (pageToken query : option string) : M σ JSON :=
  res <- fetch (drive_files_request pageToken query) ;;
  if negb (ok res) then throw (Error "Failed to fetch drive files")
  else json res.

(** The object literal serialised as the body of an import request. *)
Definition import_body (file : DriveFile.t) : JSON :=
  JObj [("file_id", JStr (DriveFile.id file));
        ("name", JStr (DriveFile.name file));
        ("mime_type", JStr (DriveFile.mimeType file));
        ("size", match DriveFile.size file with
                 | Some s =>
                     if Js.truthy_string s
                     then match Js.parseInt s with Some n => JNum n | None => JNull end
                     else JNull
                 | None => JNull
                 end)].

Definition import_request (file : DriveFile.t) : Request :=
  mkRequest POST (API_BASE +:+ "/drive/import") []
            [("Content-Type", "application/json")] (Some (import_body file)).

Definition importFile (file : DriveFile.t) : M σ JSON :=
  res <- fetch (import_request file) ;;
  if negb (ok res) then
    error <- json res ;;
    msg <- lift_result (Js.get_prop error "error") ;;
    throw (Error (if Js.truthy msg then Js.to_string_val msg else "Failed to import file"))
  else json res.

Definition files_request : Request := get (API_BASE +:+ "/files") [].

Definition listFiles : M σ JSON :=
  res <- fetch files_request ;;
  json res.

Definition search_request (query : string) : Request :=
  get (API_BASE +:+ "/files/search") [("q", query)].

Definition searchFiles (query : string) : M σ JSON :=
  res <- fetch (search_request query) ;;
  json res.

Definition delete_request (fileId : Z) : Request :=
  mkRequest DELETE (API_BASE +:+ "/files/" +:+ Js.string_of_Z fileId) [] [] None.

Definition deleteFile (fileId : Z) : M σ unit :=
  res <- fetch (delete_request fileId) ;;
  if negb (ok res) then throw (Error "Failed to delete file")
  else ret tt.

End Api.

Definition getFileUrl (fileId : Z) : string :=
  API_BASE +:+ "/files/" +:+ Js.string_of_Z fileId.

End Api.

(** ** lib/utils.ts *)

Module Utils.

Definition units : list string := ["B"; "KB"; "MB"; "GB"].

(** The loop [while (size >= 1024 && unitIndex < units.length - 1)]: the
    running [size] is the exact quotient [bytes / den], [den] a power of
    1024 (dividing a double by 1024 is exact). *)
Fixpoint scale (fuel : nat) (bytes den : Z) (unitIndex : nat) : Z * nat :=
  match fuel with
  | O => (den, unitIndex)
  | S fuel' =>
      if (1024 * den <=? bytes) && (unitIndex <? length units - 1)%nat
      then scale fuel' bytes (1024 * den) (S unitIndex)
      else (den, unitIndex)
  end.

(** [(num / den).toFixed(1)] for [0 <= num], [0 < den]: the nearest tenth,
    the larger one on a tie. *)
Definition toFixed1_nonneg (num den : Z) : string :=
  let n := (20 * num + den) / (2 * den) in
  Js.string_of_Z (n / 10) +:+ "." +:+ Js.string_of_Z (n mod 10).

Definition toFixed1 (num den : Z) : string :=
  if num <? 0 then "-" +:+ toFixed1_nonneg (- num) den else toFixed1_nonneg num den.

(** [formatFileSize(bytes)]; [None] is [null], [undefined] or [NaN].
    Exact for integers below 2^53. *)
Definition formatFileSize (bytes : option Z) : string :=
  match bytes with
  | None => "Unknown size"
  | Some b =>
      if b =? 0 then "Unknown size"
      else
        let '(den, unitIndex) := scale (length units - 1) b 1 0 in
        toFixed1 b den +:+ " " +:+ nth unitIndex units Js.empty
  end.

(** The emoji returned by [getFileIcon], by name. *)
Inductive Icon : Type :=
| PageFacingUp | ClosedBook | BarChart | Memo | FilmProjector
| FramedPicture | ClapperBoard | MusicalNote | Package | FileFolder.

Definition getFileIcon (mimeType : option string) : Icon :=
  match mimeType with
  | None => PageFacingUp
  | Some m =>
      if negb (Js.truthy_string m) then PageFacingUp
      else if Js.includes m "pdf" then ClosedBook
      else if Js.includes m "spreadsheet" || Js.includes m "excel" then BarChart
      else if Js.includes m "document" || Js.includes m "word" then Memo
      else if Js.includes m "presentation" || Js.includes m "powerpoint" then FilmProjector
      else if Js.includes m "image" then FramedPicture
      else if Js.includes m "video" then ClapperBoard
      else if Js.includes m "audio" then MusicalNote
      else if Js.includes m "zip" || Js.includes m "archive" then Package
      else if Js.includes m "folder" then FileFolder
      else PageFacingUp
  end.

End Utils.

(** ** App.tsx *)

Module App.

(** [authenticated] is [null] while the status is being checked; [files] and
    [authenticated] hold whatever value the parsed response carried. *)
Record State : Type := mkState {
  authenticated : JSVal;
  files : JSVal;
  loading : bool;
  searchQuery : string;
  showPicker : bool
}.

Definition initial : State :=
  mkState (Some JNull) (Some (JArr [])) true Js.empty false.

Definition setAuthenticated (v : JSVal) : M State unit :=
  modify (fun s => mkState v (files s) (loading s) (searchQuery s) (showPicker s)).
Definition setFiles (v : JSVal) : M State unit :=
  modify (fun s => mkState (authenticated s) v (loading s) (searchQuery s) (showPicker s)).
Definition setLoading (b : bool) : M State unit :=
  modify (fun s => mkState (authenticated s) (files s) b (searchQuery s) (showPicker s)).
Definition setSearchQuery (q : string) : M State unit :=
  modify (fun s => mkState (authenticated s) (files s) (loading s) q (showPicker s)).
Definition setShowPicker (b : bool) : M State unit :=
  modify (fun s => mkState (authenticated s) (files s) (loading s) (searchQuery s) b).

(** The API call made by [fetchFiles], and its request. *)
Definition fetchFiles_call (s : State) : M State JSON :=
  if Js.truthy_string (searchQuery s)
  then Api.searchFiles (searchQuery s)
  else Api.listFiles.

Definition fetchFiles_request (s : State) : Request :=
  if Js.truthy_string (searchQuery s)
  then Api.search_request (searchQuery s)
  else Api.files_request.

Definition fetchFiles (s : State) : M State unit :=
  setLoading true ;;
  try_finally
    (try_catch
       (r <- fetchFiles_call s ;;
        files <- lift_result (Js.get_prop r "files") ;;
        setFiles files)
       (fun error => console_error "Failed to fetch files:" error))
    (setLoading false).

Definition checkAuth (s : State) : M State unit :=
  try_catch
    (r <- Api.getAuthStatus ;;
     authenticated <- lift_result (Js.get_prop r "authenticated") ;;
     setAuthenticated authenticated ;;
     if Js.truthy authenticated
     then no_await (fetchFiles s)
     else setLoading false)
    (fun _ =>
       setAuthenticated (Some (JBool false)) ;;
       setLoading false).

Definition handleLogin (s : State) : M State unit :=
  try_catch
    (r <- Api.getAuthUrl ;;
     auth_url <- lift_result (Js.get_prop r "auth_url") ;;
     emit (EvSetLocation auth_url))
    (fun error => alert "Failed to initiate login. Please try again.").

Definition handleLogout (s : State) : M State unit :=
  Api.logout ;;
  setAuthenticated (Some (JBool false)) ;;
  setFiles (Some (JArr [])).

Definition handleSearch (s : State) : M State unit :=
  no_await (fetchFiles s).

(** Which of the three branches of the render function is taken.
    [CheckingAuth] and [LoginScreen] are whole screens that read nothing but
    [authenticated].  [Dashboard] only says that the third branch is entered:
    that branch goes on to read [files.length] and [files.map], which [screen]
    does not follow. *)
Inductive Screen : Type := CheckingAuth | LoginScreen | Dashboard.

Definition screen (s : State) : Screen :=
  match authenticated s with
  | Some JNull => CheckingAuth
  | v => if Js.truthy v then Dashboard else LoginScreen
  end.

End App.

(** ** components/FileCard.tsx *)

Module FileCard.

Definition dquote : string := String (ascii_of_nat 34) EmptyString.

Definition delete_question (file : DataroomFile.t) : string :=
  "Delete " +:+ dquote +:+ DataroomFile.name file +:+ dquote +:+ " from the dataroom?".

(** The card has no state of its own. *)
Definition handleDelete (file : DataroomFile.t) (_ : unit) : M unit unit :=
  confirmed <- confirm (delete_question file) ;;
  if negb confirmed then ret tt
  else
    try_catch
      (Api.deleteFile (DataroomFile.id file) ;;
       call_prop OnDelete)
      (fun error => alert "Failed to delete file. Please try again.").

Definition handleView (file : DataroomFile.t) (_ : unit) : M unit unit :=
  emit (EvWindowOpen (Api.getFileUrl (DataroomFile.id file)) "_blank").

End FileCard.

(** ** components/DriveFilePicker.tsx *)

Module DriveFilePicker.

Record State : Type := mkState {
  files : list DriveFile.t;
  loading : bool;
  searchQuery : string;
  selectedFiles : gset string;
  importing : bool;
  nextPageToken : option string;
  prevTokens : list string
}.

Definition initial : State :=
  mkState [] true Js.empty ∅ false None [].

Definition setFiles (v : list DriveFile.t) : M State unit :=
  modify (fun s => mkState v (loading s) (searchQuery s) (selectedFiles s)
                           (importing s) (nextPageToken s) (prevTokens s)).
Definition setLoading (v : bool) : M State unit :=
  modify (fun s => mkState (files s) v (searchQuery s) (selectedFiles s)
                           (importing s) (nextPageToken s) (prevTokens s)).
Definition setSearchQuery (v : string) : M State unit :=
  modify (fun s => mkState (files s) (loading s) v (selectedFiles s)
                           (importing s) (nextPageToken s) (prevTokens s)).
Definition setSelectedFiles (v : gset string) : M State unit :=
  modify (fun s => mkState (files s) (loading s) (searchQuery s) v
                           (importing s) (nextPageToken s) (prevTokens s)).
Definition setImporting (v : bool) : M State unit :=
  modify (fun s => mkState (files s) (loading s) (searchQuery s) (selectedFiles s)
                           v (nextPageToken s) (prevTokens s)).
Definition setNextPageToken (v : option string) : M State unit :=
  modify (fun s => mkState (files s) (loading s) (searchQuery s) (selectedFiles s)
                           (importing s) v (prevTokens s)).
Definition setPrevTokens (v : list string) : M State unit :=
  modify (fun s => mkState (files s) (loading s) (searchQuery s) (selectedFiles s)
                           (importing s) (nextPageToken s) v).

(** *** The parsed listing read at the interface [DriveListResponse] *)

Definition as_string (v : JSVal) : option string :=
  match v with
  | Some (JStr s) => Some s
  | _ => None
  end.

(** An optional member: absent (or [null]) or a string. *)
Definition as_optional_string (v : JSVal) : option (option string) :=
  match v with
  | None => Some None
  | Some JNull => Some None
  | Some (JStr s) => Some (Some s)
  | _ => None
  end.

Definition as_DriveFile (j : JSON) : option DriveFile.t :=
  match j with
  | JObj fields =>
      id ← as_string (Js.obj_get "id" fields);
      name ← as_string (Js.obj_get "name" fields);
      mimeType ← as_string (Js.obj_get "mimeType" fields);
      size ← as_optional_string (Js.obj_get "size" fields);
      modifiedTime ← as_optional_string (Js.obj_get "modifiedTime" fields);
      iconLink ← as_optional_string (Js.obj_get "iconLink" fields);
      thumbnailLink ← as_optional_string (Js.obj_get "thumbnailLink" fields);
      Some (DriveFile.mk id name mimeType size modifiedTime iconLink thumbnailLink)
  | _ => None
  end.

(** [result.files || []] as a [DriveFile[]]: a falsy value gives the empty
    list. *)
Definition files_or_empty (v : JSVal) : option (list DriveFile.t) :=
  if Js.truthy v then
    match v with
    | Some (JArr items) => mapM as_DriveFile items
    | _ => None
    end
  else Some [].

(** *** Handlers *)

Definition fetchFiles (pageToken query : option string) : M State unit :=
  setLoading true ;;
  try_finally
    (try_catch
       (result <- Api.listDriveFiles pageToken query ;;
        files_v <- lift_result (Js.get_prop result "files") ;;
        files <- typed (files_or_empty files_v) ;;
        setFiles files ;;
        token_v <- lift_result (Js.get_prop result "nextPageToken") ;;
        token <- typed (as_optional_string token_v) ;;
        setNextPageToken token)
       (fun error => console_error "Failed to fetch drive files:" error))
    (setLoading false).

(** [useEffect(() => { fetchFiles() }, [])] *)
Definition mount (s : State) : M State unit :=
  no_await (fetchFiles None None).

Definition handleSearch (s : State) : M State unit :=
  setPrevTokens [] ;;
  no_await (fetchFiles None (Some (searchQuery s))).

Definition handleNextPage (s : State) : M State unit :=
  match nextPageToken s with
  | Some token =>
      if Js.truthy_string token then
        setPrevTokens (prevTokens s ++ [Js.empty]) ;;
        no_await (fetchFiles (Some token) (Some (searchQuery s)))
      else ret tt
  | None => ret tt
  end.

(** [a.pop()] on a non-empty array: the array without its last element, and
    that element. *)
Fixpoint pop {A} (l : list A) : option (list A * A) :=
  match l with
  | [] => None
  | x :: rest =>
      match pop rest with
      | None => Some ([], x)
      | Some (rest', y) => Some (x :: rest', y)
      end
  end.

Definition handlePrevPage (s : State) : M State unit :=
  match pop (prevTokens s) with
  | Some (newPrevTokens, token) =>
      setPrevTokens newPrevTokens ;;
      no_await (fetchFiles (if Js.truthy_string token then Some token else None)
                           (Some (searchQuery s)))
  | None => ret tt
  end.

Definition toggleSelect (fileId : string) (s : State) : M State unit :=
  setSelectedFiles
    (if bool_decide (fileId ∈ selectedFiles s)
     then selectedFiles s ∖ {[fileId]}
     else selectedFiles s ∪ {[fileId]}).

Definition filesToImport (s : State) : list DriveFile.t :=
  List.filter (fun f => bool_decide (DriveFile.id f ∈ selectedFiles s)) (files s).

(** The body of the [for ... of] loop, once per file, with the two counters. *)
Fixpoint import_loop (batch : list DriveFile.t) (successCount errorCount : nat)
  : M State (nat * nat) :=
  match batch with
  | [] => ret (successCount, errorCount)
  | file :: rest =>
      counts <- try_catch
                  (_ <- Api.importFile file ;;
                   ret (S successCount, errorCount))
                  (fun error =>
                     console_error ("Failed to import " +:+ DriveFile.name file +:+ ":") error ;;
                     ret (successCount, S errorCount)) ;;
      import_loop rest (fst counts) (snd counts)
  end.

Definition summary (successCount errorCount : nat) : string :=
  "Imported " +:+ Js.string_of_nat successCount +:+ " file(s). "
  +:+ Js.string_of_nat errorCount +:+ " file(s) failed or already exist.".

Definition handleImport (s : State) : M State unit :=
  let batch := filesToImport s in
  if (length batch =? 0)%nat then ret tt
  else
    setImporting true ;;
    counts <- import_loop batch 0 0 ;;
    setImporting false ;;
    (if (0 <? snd counts)%nat
     then alert (summary (fst counts) (snd counts))
     else ret tt) ;;
    call_prop OnImport ;;
    call_prop OnClose.

(** *** Rendering *)

Definition isGoogleDoc (mimeType : string) : bool :=
  String.prefix "application/vnd.google-apps." mimeType.

Definition isFolder (mimeType : string) : bool :=
  String.eqb mimeType "application/vnd.google-apps.folder".

(** One [label] row of the list. *)
Record Row : Type := mkRow {
  row_key : string;
  row_checked : bool;
  row_icon : Utils.Icon;
  row_name : string;
  row_detail : string
}.

(** [file.size ? parseInt(file.size) : null] *)
Definition size_in_bytes (file : DriveFile.t) : option Z :=
  match DriveFile.size file with
  | Some sz => if Js.truthy_string sz then Js.parseInt sz else None
  | None => None
  end.

Definition render_row (s : State) (file : DriveFile.t) : Row :=
  mkRow (DriveFile.id file)
        (bool_decide (DriveFile.id file ∈ selectedFiles s))
        (Utils.getFileIcon (Some (DriveFile.mimeType file)))
        (DriveFile.name file)
        (if isGoogleDoc (DriveFile.mimeType file)
         then "Google Doc"
         else Utils.formatFileSize (size_in_bytes file)).

Inductive FileList : Type :=
| Spinner
| NoFilesFound
| Rows (rows : list Row).

Definition render_file_list (s : State) : FileList :=
  if loading s then Spinner
  else if (length (files s) =? 0)%nat then NoFilesFound
  else Rows (map (render_row s)
                 (List.filter (fun f => negb (isFolder (DriveFile.mimeType f))) (files s))).

Definition prev_disabled (s : State) : bool := (length (prevTokens s) =? 0)%nat.
Definition next_disabled (s : State) : bool :=
  negb match nextPageToken s with Some t => Js.truthy_string t | None => false end.
Definition import_disabled (s : State) : bool :=
  (size (selectedFiles s) =? 0)%nat || importing s.

End DriveFilePicker.

(** ** The picker as the user drives it *)

(** The events the dialog binds in its JSX: typing in the search box,
    submitting the search (button or Enter), the two pagination buttons, the
    checkbox of a row, and the import button.  A disabled button fires
    nothing; a checkbox exists only for a row that is rendered.  [on_event]
    is the handling of one such event from the state it is dispatched in. *)
Module PickerSession.
Import DriveFilePicker.

Inductive UserEvent : Type :=
| TypeQuery (text : string)
| SubmitSearch
| ClickNext
| ClickPrevious
| TickFile (fileId : string)
| ClickImport.

Definition displayed_ids (s : State) : list string :=
  match render_file_list s with
  | Rows rows => map row_key rows
  | _ => []
  end.

Definition on_event (ev : UserEvent) (s : State) : M State unit :=
  match ev with
  | TypeQuery text => setSearchQuery text
  | SubmitSearch => handleSearch s
  | ClickNext => if next_disabled s then ret tt else handleNextPage s
  | ClickPrevious => if prev_disabled s then ret tt else handlePrevPage s
  | TickFile fileId =>
      if bool_decide (fileId ∈ displayed_ids s) then toggleSelect fileId s else ret tt
  | ClickImport => if import_disabled s then ret tt else handleImport s
  end.

(** The two endpoints of the picker. *)
Definition picker_endpoint (req : Request) : Prop :=
  (req_method req = GET ∧ req_path req = "/api/drive/files")
  ∨ (req_method req = POST ∧ req_path req = "/api/drive/import").

End PickerSession.

(** ** A concrete backend for examples *)

Module Scenario.

Definition drive_file (id name mimeType : string) (size : option string) : DriveFile.t :=
  DriveFile.mk id name mimeType size None None None.

Definition json_of_drive_file (f : DriveFile.t) : JSON :=
  JObj ([("id", JStr (DriveFile.id f));
         ("name", JStr (DriveFile.name f));
         ("mimeType", JStr (DriveFile.mimeType f))]
        ++ match DriveFile.size f with
           | Some sz => [("size", JStr sz)]
           | None => []
           end).

Definition listing (files : list DriveFile.t) (next : option string) : JSON :=
  JObj ([("files", JArr (map json_of_drive_file files))]
        ++ match next with
           | Some t => [("nextPageToken", JStr t)]
           | None => []
           end).

Definition report : DriveFile.t :=
  drive_file "f1" "report.pdf" "application/pdf" (Some "1536").
Definition notes : DriveFile.t :=
  drive_file "f2" "notes" "application/vnd.google-apps.document" None.
Definition folder : DriveFile.t :=
  drive_file "f3" "Deals" "application/vnd.google-apps.folder" None.
Definition photo : DriveFile.t :=
  drive_file "f4" "photo.png" "image/png" (Some "2097152").
Definition ledger : DriveFile.t :=
  drive_file "f5" "ledger.xlsx" "application/vnd.ms-excel" (Some "10").

Definition query_get (k : string) (q : list (string * string)) : option string :=
  snd <$> List.find (fun kv => String.eqb k (fst kv)) q.

Definition json_ok (j : JSON) : FetchOutcome := Resolves (mkResponse 200 (Some j)).
Definition json_error (status : Z) (msg : string) : FetchOutcome :=
  Resolves (mkResponse status (Some (JObj [("error", JStr msg)]))).

(** A Drive with three pages, reached by the tokens [t1] and [t2]; the
    import of [f2] is refused; everything else succeeds. *)
Definition backend (history : list Event) (req : Request) : FetchOutcome :=
  match req_method req with
  | GET =>
      if String.eqb (req_path req) "/api/drive/files" then
        match query_get "pageToken" (req_query req) with
        | None => json_ok (listing [report; notes; folder] (Some "t1"))
        | Some t =>
            if String.eqb t "t1" then json_ok (listing [photo] (Some "t2"))
            else if String.eqb t "t2" then json_ok (listing [ledger] None)
            else json_error 400 "Invalid page token"
        end
      else if String.eqb (req_path req) "/api/auth/status" then
        json_ok (JObj [("authenticated", JBool true)])
      else if String.eqb (req_path req) "/api/auth/login" then
        json_ok (JObj [("auth_url", JStr "https://accounts.google.com/o/oauth2/auth")])
      else json_ok (JObj [("files", JArr [])])
  | POST =>
      if String.eqb (req_path req) "/api/drive/import" then
        match req_body req with
        | Some (JObj (("file_id", JStr "f2") :: _)) => json_error 409 "File already exists in data room"
        | _ => json_ok (JObj [("success", JBool true)])
        end
      else json_ok (JObj [("success", JBool true)])
  | DELETE => json_ok (JObj [("success", JBool true)])
  end.

Definition env : Env := mkEnv backend (fun _ _ => true).

(** A backend that reports a user who has not connected a Drive. *)
Definition signed_out : Env :=
  mkEnv (fun _ _ => json_ok (JObj [("authenticated", JBool false)])) (fun _ _ => true).

(** The same backend with the network down. *)
Definition offline : Env :=
  mkEnv (fun _ _ => Rejects (TypeError "Failed to fetch")) (fun _ _ => true).

(** The same backend answering every request with [500]. *)
Definition internal_error : Response :=
  mkResponse 500 (Some (JObj [("error", JStr "Internal Server Error")])).

Definition failing : Env :=
  mkEnv (fun _ _ => Resolves internal_error) (fun _ _ => true).


Definition nowhere : World unit := mkWorld tt [].



(** The backend of [env] with a user who answers every [confirm] with
    "Cancel". *)
Definition declining : Env := mkEnv backend (fun _ _ => false).

(** The root component once the authentication check has settled. *)
Definition signed_in : World App.State :=
  after App.checkAuth env (mkWorld App.initial []).

Definition first_page_rows : list DriveFilePicker.Row :=
  [DriveFilePicker.mkRow "f1" false Utils.ClosedBook "report.pdf" "1.5 KB";
   DriveFilePicker.mkRow "f2" false Utils.Memo "notes" "Google Doc"].

Definition stored_report : DataroomFile.t :=
  DataroomFile.mk 42 "report.pdf" (Some "application/pdf") (Some 1536) "f1"
                  "2025-12-24T10:00:00".

Definition picker_opened : World DriveFilePicker.State :=
  after DriveFilePicker.mount env (mkWorld DriveFilePicker.initial []).

(** Two "next" clicks from the first page, then one "previous". *)
Definition on_page_two : World DriveFilePicker.State :=
  after DriveFilePicker.handleNextPage env picker_opened.
Definition on_page_three : World DriveFilePicker.State :=
  after DriveFilePicker.handleNextPage env on_page_two.
Definition back_from_page_three : World DriveFilePicker.State :=
  after DriveFilePicker.handlePrevPage env on_page_three.

(** Only the first file of the first page ticked. *)
Definition one_selected : World DriveFilePicker.State :=
  after (DriveFilePicker.toggleSelect "f1") env picker_opened.

(** Both files of the first page ticked. *)
Definition two_selected : World DriveFilePicker.State :=
  after (DriveFilePicker.toggleSelect "f2") env
    (after (DriveFilePicker.toggleSelect "f1") env picker_opened).

Definition two_imported : World DriveFilePicker.State :=
  after DriveFilePicker.handleImport env two_selected.

(** [f1] ticked on the first page, then "next": the selection holds a file
    that the page on display does not. *)
Definition selection_left_behind : World DriveFilePicker.State :=
  after DriveFilePicker.handleNextPage env
    (after (DriveFilePicker.toggleSelect "f1") env picker_opened).

(** A page that holds nothing but a folder. *)
Definition folders_only : DriveFilePicker.State :=
  DriveFilePicker.mkState [folder] false Js.empty ∅ false None [].

(** [f1] ticked on the first page, then "next", then [f4] ticked on the
    second page. *)
Definition selected_across_pages : World DriveFilePicker.State :=
  after (DriveFilePicker.toggleSelect "f4") env
    (after DriveFilePicker.handleNextPage env
       (after (DriveFilePicker.toggleSelect "f1") env picker_opened)).

End Scenario.

(** ** Vocabulary of the statements *)

(** [c] makes exactly one network call, the request [req], changes nothing
    else, and its result is [result] of the answer. *)
Definition one_call {σ A} (c : M σ A) (req : Request) (result : FetchOutcome -> Result A)
  : Prop :=
  ∀ (env : Env) (w : World σ),
    c env w = (result (net env (trace w) req),
               mkWorld (st w) (trace w ++ [EvFetch req (net env (trace w) req)])).



(** On a response that is not 2xx, [c] throws [Error(msg)]. *)
Definition throws_message {σ A} (c : M σ A) (req : Request) (msg : string) : Prop :=
  ∀ (env : Env) (w : World σ) (res : Response),
    net env (trace w) req = Resolves res → ok res = false →
    fst (c env w) = Throw (Error msg).

(** Results of an API function as a function of the answer: the parsed body
    with no look at the status; the parsed body of a 2xx answer and the given
    error otherwise; nothing at all. *)
Definition parsed (res : Response) : Result JSON :=
  match body res with
  | Some j => Ok j
  | None => Throw (SyntaxError "Unexpected token in JSON")
  end.

Definition unchecked_json (answer : FetchOutcome) : Result JSON :=
  match answer with
  | Rejects e => Throw e
  | Resolves res => parsed res
  end.

Definition checked (A : Type) (on_ok : Response -> Result A) (on_failure : Response -> Result A)
  (answer : FetchOutcome) : Result A :=
  match answer with
  | Rejects e => Throw e
  | Resolves res => if ok res then on_ok res else on_failure res
  end.



(** The text logged when the import of a file of [batch] fails. *)
Definition logs_a_file_of (batch : list DriveFile.t) (msg : string) : Prop :=
  ∃ f, f ∈ batch ∧ msg = "Failed to import " +:+ DriveFile.name f +:+ ":".

(** The claim "the batch import reports the totals in an alert". *)
Definition reports_totals (env : Env) (w : World DriveFilePicker.State) : Prop :=
  let evs := new_events w (after DriveFilePicker.handleImport env w) in
  alerts evs = [DriveFilePicker.summary (successes evs) (failures evs)].

(** The state components a Drive listing leaves alone. *)
Definition same_navigation (s s' : DriveFilePicker.State) : Prop :=
  DriveFilePicker.searchQuery s' = DriveFilePicker.searchQuery s
  ∧ DriveFilePicker.selectedFiles s' = DriveFilePicker.selectedFiles s
  ∧ DriveFilePicker.importing s' = DriveFilePicker.importing s
  ∧ DriveFilePicker.prevTokens s' = DriveFilePicker.prevTokens s.

(** The messages of the three handlers that log or alert a failed call. *)
Definition fetch_failed : string := "Failed to fetch files:".
Definition login_failed : string := "Failed to initiate login. Please try again.".
Definition listing_failed : string := "Failed to fetch drive files:".

(** Two ways a call can fail.  [no_json]: the call is rejected or its
    response has a body that is not JSON.  [refused]: the call is rejected or
    answered with a status that is not 2xx.  (The third, [succeeded] being
    false, is either of the two.) *)
Definition no_json (answer : FetchOutcome) : bool :=
  match answer with
  | Rejects _ => true
  | Resolves res => negb (bool_decide (is_Some (body res)))
  end.

Definition refused (answer : FetchOutcome) : bool :=
  match answer with
  | Rejects _ => true
  | Resolves res => negb (ok res)
  end.

(** [handler], whose one call is [call] with the request [req], never rejects
    nor leaves a rejected promise behind; when the answer is a failure in the
    sense of [failed], the call throws some [e] and the events of the handler
    satisfy [outcome e]. *)
Definition handles_failure {σ A B} (call : M σ A) (handler : M σ B) (req : Request)
    (failed : FetchOutcome -> bool) (outcome : Exn -> list Event -> Prop) : Prop :=
  ∀ (env : Env) (w : World σ),
    (∀ e', fst (handler env w) ≠ Throw e')
    ∧ unhandled_rejections (new_events w (snd (handler env w))) = []
    ∧ (failed (net env (trace w) req) = true →
       ∃ e, fst (call env w) = Throw e ∧ outcome e (new_events w (snd (handler env w)))).

(** A failure is surfaced when the run logged an error or showed an alert. *)
Definition surfaced (evs : list Event) : Prop :=
  console_errors evs ≠ [] ∨ alerts evs ≠ [].

(** The claim "a failure of [call] inside [handler] is caught at the call
    site and surfaced": the handler's promise does not reject, it leaves no
    rejected promise behind, and the failure is logged or alerted. *)
Definition caught_and_surfaced {σ A B} (call : M σ A) (handler : M σ B) : Prop :=
  ∀ (env : Env) (w : World σ) (e : Exn),
    fst (call env w) = Throw e →
    (∀ e', fst (handler env w) ≠ Throw e')
    ∧ unhandled_rejections (new_events w (snd (handler env w))) = []
    ∧ surfaced (new_events w (snd (handler env w))).

(** [handler] never rejects nor leaves a rejected promise behind; when [call]
    fails with [e], the events of the handler satisfy [outcome e]. *)
Definition caught {σ A B} (call : M σ A) (handler : M σ B)
    (outcome : Exn -> list Event -> Prop) : Prop :=
  ∀ (env : Env) (w : World σ),
    (∀ e', fst (handler env w) ≠ Throw e')
    ∧ unhandled_rejections (new_events w (snd (handler env w))) = []
    ∧ (∀ e, fst (call env w) = Throw e → outcome e (new_events w (snd (handler env w)))).
(** * Properties *)

(** ** Sanity checks of the JavaScript primitives *)

Example parseInt_ex1 : Js.parseInt "1536" = Some 1536.
Proof. reflexivity. Qed.
Example parseInt_ex2 : Js.parseInt "  -12px" = Some (-12).
Proof. reflexivity. Qed.
Example parseInt_ex3 : Js.parseInt "abc" = None.
Proof. reflexivity. Qed.
Example parseInt_ex4 : Js.parseInt "0x1f" = Some 31.
Proof. reflexivity. Qed.
Example to_string_ex : Js.to_string (JArr [JNum 1; JNull; JStr "a"]) = "1,,a".
Proof. reflexivity. Qed.
Example formatFileSize_ex1 : Utils.formatFileSize (Some 1536) = "1.5 KB".
Proof. reflexivity. Qed.
Example formatFileSize_ex2 : Utils.formatFileSize (Some 1023) = "1023.0 B".
Proof. reflexivity. Qed.
Example formatFileSize_ex3 : Utils.formatFileSize (Some 5368709120000) = "5000.0 GB".
Proof. reflexivity. Qed.
Example formatFileSize_ex4 : Utils.formatFileSize (Some 1048575) = "1024.0 KB".
Proof. reflexivity. Qed.
Example formatFileSize_ex5 : Utils.formatFileSize (Some 0) = "Unknown size".
Proof. reflexivity. Qed.


(** Unfolding of the monad's operations in a goal or a hypothesis. *)
Ltac unfold_monad :=
  unfold json, typed, console_error, alert, call_prop in *;
  unfold bind, ret, throw, ill_typed, lift_result, try_catch, try_finally,
    modify, emit, fetch, confirm, no_await, dispatch in *.

Lemma new_events_app {σ} (w : World σ) (s' : σ) (evs : list Event) :
  new_events w (mkWorld s' (trace w ++ evs)) = evs.
Proof. unfold new_events. simpl. by rewrite drop_app_length. Qed.

Lemma fetches_app (l1 l2 : list Event) : fetches (l1 ++ l2) = fetches l1 ++ fetches l2.
Proof. unfold fetches, fetch_log. by rewrite omap_app, map_app. Qed.

(** ** The API client *)

Module ApiFacts.
Section ApiFacts.
Context {σ : Type}.

Lemma getAuthStatus_run :
  one_call (σ := σ) Api.getAuthStatus Api.auth_status_request unchecked_json.
Proof.
  intros env w. unfold Api.getAuthStatus, unchecked_json, parsed. unfold_monad.
  destruct (net env (trace w) _) as [e|res]; [reflexivity|].
  by destruct (body res).
Qed.

Lemma getAuthUrl_run :
  one_call (σ := σ) Api.getAuthUrl Api.auth_login_request unchecked_json.
Proof.
  intros env w. unfold Api.getAuthUrl, unchecked_json, parsed. unfold_monad.
  destruct (net env (trace w) _) as [e|res]; [reflexivity|].
  by destruct (body res).
Qed.

Lemma listFiles_run :
  one_call (σ := σ) Api.listFiles Api.files_request unchecked_json.
Proof.
  intros env w. unfold Api.listFiles, unchecked_json, parsed. unfold_monad.
  destruct (net env (trace w) _) as [e|res]; [reflexivity|].
  by destruct (body res).
Qed.

Lemma searchFiles_run (query : string) :
  one_call (σ := σ) (Api.searchFiles query) (Api.search_request query) unchecked_json.
Proof.
  intros env w. unfold Api.searchFiles, unchecked_json, parsed. unfold_monad.
  destruct (net env (trace w) _) as [e|res]; [reflexivity|].
  by destruct (body res).
Qed.

Lemma logout_run :
  one_call (σ := σ) Api.logout Api.logout_request
    (fun answer => match answer with Rejects e => Throw e | Resolves _ => Ok tt end).
Proof.
  intros env w. unfold Api.logout. unfold_monad.
  by destruct (net env (trace w) _) as [e|res].
Qed.

Lemma listDriveFiles_run (pageToken query : option string) :
  one_call (σ := σ) (Api.listDriveFiles pageToken query)
    (Api.drive_files_request pageToken query)
    (checked JSON parsed (fun _ => Throw (Error "Failed to fetch drive files"))).
Proof.
  intros env w. unfold Api.listDriveFiles, checked, parsed. unfold_monad.
  destruct (net env (trace w) _) as [e|res]; [reflexivity|].
  destruct (ok res); simpl; [|reflexivity].
  by destruct (body res).
Qed.


Lemma deleteFile_run (fileId : Z) :
  one_call (σ := σ) (Api.deleteFile fileId) (Api.delete_request fileId)
    (checked unit (fun _ => Ok tt) (fun _ => Throw (Error "Failed to delete file"))).
Proof.
  intros env w. unfold Api.deleteFile, checked. unfold_monad.
  destruct (net env (trace w) _) as [e|res]; [reflexivity|].
  by destruct (ok res).
Qed.

(** What an API function returns depends on the answer, not on the state of
    the component that called it. *)
Lemma one_call_result {A} (c : M σ A) (req : Request) (result : FetchOutcome -> Result A)
    (env : Env) (w : World σ) :
  one_call c req result → fst (c env w) = result (net env (trace w) req).
Proof. intros H. by rewrite H. Qed.

End ApiFacts.
End ApiFacts.

(** ** The root component *)

Module AppFacts.
Import App ApiFacts.

Lemma fetchFiles_call_run (s : State) :
  one_call (fetchFiles_call s) (fetchFiles_request s) unchecked_json.
Proof.
  unfold fetchFiles_call, fetchFiles_request.
  destruct (Js.truthy_string (searchQuery s)).
  - apply searchFiles_run.
  - apply listFiles_run.
Qed.

(** [fetchFiles] never rejects; a failed call ends in one [console.error]
    and leaves the list as it was. *)
Lemma root_fetchFiles_run (s : State) (env : Env) (w : World State) :
  ∃ s' tail,
    fetchFiles s env w
    = (Ok tt, mkWorld s' (trace w ++ EvFetch (fetchFiles_request s)
                                          (net env (trace w) (fetchFiles_request s))
                                      :: tail))
    ∧ loading s' = false
    ∧ authenticated s' = authenticated (st w)
    ∧ (tail = [] ∨ ∃ e, tail = [EvConsoleError fetch_failed e])
    ∧ (∀ e, fst (fetchFiles_call s env w) = Throw e →
            tail = [EvConsoleError fetch_failed e] ∧ files s' = files (st w)).
Proof.
  unfold fetchFiles. unfold bind at 1. unfold setLoading at 1, modify at 1.
  set (w0 := mkWorld _ (trace w)).
  unfold try_finally, try_catch. unfold bind at 1.
  rewrite (fetchFiles_call_run s env w0).
  rewrite (one_call_result _ _ _ env w (fetchFiles_call_run s)).
  change (trace w0) with (trace w).
  destruct (net env (trace w) (fetchFiles_request s)) as [e|res]; cbn [unchecked_json].
  { unfold_monad. cbn [st trace]. eexists _, _. rewrite <- app_assoc.
    split; [reflexivity|]. cbn. split; [reflexivity|]. split; [reflexivity|].
    split; [eauto|]. intros e' [= <-]. split; reflexivity. }
  unfold parsed. destruct (body res) as [j|].
  2:{ unfold_monad. cbn [st trace]. eexists _, _. rewrite <- app_assoc.
      split; [reflexivity|]. cbn. split; [reflexivity|]. split; [reflexivity|].
      split; [eauto|]. intros e' [= <-]. split; reflexivity. }
  unfold bind, lift_result.
  destruct (Js.get_prop j "files") as [v|e|] eqn:Hprop.
  - unfold_monad. cbn [st trace]. eexists _, _.
    split; [reflexivity|]. cbn. split; [reflexivity|]. split; [reflexivity|].
    split; [eauto|]. discriminate.
  - unfold_monad. cbn [st trace]. eexists _, _. rewrite <- app_assoc.
    split; [reflexivity|]. cbn. split; [reflexivity|]. split; [reflexivity|].
    split; [eauto|]. discriminate.
  - destruct j; discriminate.
Qed.

(** A rejected logout call: the rejection leaves the handler, uncaught, and
    the state is not reset. *)
Lemma handleLogout_rejected (s : State) (env : Env) (w : World State) (e : Exn) :
  net env (trace w) Api.logout_request = Rejects e →
  handleLogout s env w
  = (Throw e, mkWorld (st w) (trace w ++ [EvFetch Api.logout_request (Rejects e)])).
Proof.
  intros Hnet. unfold handleLogout. unfold bind at 1.
  by rewrite (logout_run env w), Hnet.
Qed.

(** The authentication check never rejects and starts no promise that
    does; when the status call fails the component falls back to the login
    screen, with nothing logged and no dialog. *)
Lemma checkAuth_run (s : State) (env : Env) (w : World State) :
  ∃ s' evs,
    checkAuth s env w = (Ok tt, mkWorld s' (trace w ++ evs))
    ∧ unhandled_rejections evs = []
    ∧ alerts evs = []
    ∧ (∀ e, fst (Api.getAuthStatus env w) = Throw e →
            evs = [EvFetch Api.auth_status_request (net env (trace w) Api.auth_status_request)]
            ∧ authenticated s' = Some (JBool false)
            ∧ loading s' = false).
Proof.
  unfold checkAuth, try_catch. unfold bind at 1.
  rewrite (getAuthStatus_run env w). cbn [fst].
  destruct (net env (trace w) Api.auth_status_request) as [e|res]; cbn [unchecked_json].
  { unfold setAuthenticated, setLoading. unfold_monad. cbn [st trace].
    eexists _, _. split; [reflexivity|]. cbn. auto. }
  unfold parsed. destruct (body res) as [j|].
  2:{ unfold setAuthenticated, setLoading. unfold_monad. cbn [st trace].
      eexists _, _. split; [reflexivity|]. cbn. auto. }
  unfold bind at 1. unfold lift_result at 1.
  destruct (Js.get_prop j "authenticated") as [v|e|] eqn:Hprop.
  - unfold bind at 1. unfold setAuthenticated at 1, modify at 1. cbn [st trace].
    destruct (Js.truthy v).
    + set (w1 := mkWorld _ _).
      destruct (root_fetchFiles_run s env w1) as (s' & tail & Hrun & _ & _ & Htail & _).
      unfold no_await. rewrite Hrun. subst w1. cbn [trace]. rewrite <- app_assoc.
      eexists _, _. split; [reflexivity|].
      split; [|split; [|discriminate]];
        destruct Htail as [->|[e ->]]; reflexivity.
    + unfold setLoading, modify. cbn [st trace].
      eexists _, _. split; [reflexivity|]. cbn. repeat split; discriminate.
  - unfold setAuthenticated, setLoading. unfold_monad. cbn [st trace].
    eexists _, _. split; [reflexivity|]. cbn. repeat split; discriminate.
  - destruct j; discriminate.
Qed.

(** [handleLogin] never rejects; a failed call ends in an alert. *)
Lemma handleLogin_run (s : State) (env : Env) (w : World State) :
  ∃ evs,
    handleLogin s env w = (Ok tt, mkWorld (st w) (trace w ++ evs))
    ∧ unhandled_rejections evs = []
    ∧ (∀ e, fst (Api.getAuthUrl env w) = Throw e → alerts evs = [login_failed]).
Proof.
  unfold handleLogin, try_catch. unfold bind at 1.
  rewrite (getAuthUrl_run env w). cbn [fst].
  destruct (net env (trace w) Api.auth_login_request) as [e|res]; cbn [unchecked_json].
  { unfold_monad. cbn [st trace]. rewrite <- app_assoc.
    eexists. split; [reflexivity|]. cbn. auto. }
  unfold parsed. destruct (body res) as [j|].
  2:{ unfold_monad. cbn [st trace]. rewrite <- app_assoc.
      eexists. split; [reflexivity|]. cbn. auto. }
  unfold bind at 1. unfold lift_result at 1.
  destruct (Js.get_prop j "auth_url") as [v|e|] eqn:Hprop.
  - unfold_monad. cbn [st trace]. rewrite <- app_assoc.
    eexists. split; [reflexivity|]. cbn. split; [reflexivity|discriminate].
  - unfold_monad. cbn [st trace]. rewrite <- app_assoc.
    eexists. split; [reflexivity|]. cbn. split; [reflexivity|discriminate].
  - destruct j; discriminate.
Qed.

End AppFacts.

(** ** The picker's [fetchFiles] *)

Module PickerFacts.
Import DriveFilePicker.

(** One listing is one request; whatever the answer, the promise does not
    reject: a failure ends in one [console.error]. *)
Lemma fetchFiles_run (pageToken query : option string) (env : Env) (w : World State) :
  ∃ r s' tail,
    fetchFiles pageToken query env w
    = (r, mkWorld s' (trace w ++ EvFetch (Api.drive_files_request pageToken query)
                                    (net env (trace w) (Api.drive_files_request pageToken query))
                                :: tail))
    ∧ (r = Ok tt ∨ r = IllTyped)
    ∧ (tail = [] ∨ ∃ e, tail = [EvConsoleError "Failed to fetch drive files:" e])
    ∧ same_navigation (st w) s'.
Proof.
  unfold fetchFiles, Api.listDriveFiles, setLoading, setFiles, setNextPageToken, same_navigation.
  unfold_monad. simpl.
  destruct (net env (trace w) _) as [e|res]; simpl.
  { eexists _, _, _. rewrite <- app_assoc. simpl. split; [reflexivity|]. eauto 10. }
  destruct (ok res); simpl.
  2:{ eexists _, _, _. rewrite <- app_assoc. simpl. split; [reflexivity|]. eauto 10. }
  destruct (body res) as [j|]; simpl.
  2:{ eexists _, _, _. rewrite <- app_assoc. simpl. split; [reflexivity|]. eauto 10. }
  destruct (Js.get_prop j "files") as [fv|e|] eqn:Hf; simpl.
  - destruct (files_or_empty fv) as [fs|]; simpl.
    + destruct (Js.get_prop j "nextPageToken") as [tv|e|] eqn:Ht; simpl.
      * destruct (as_optional_string tv); simpl; eexists _, _, _; (split; [reflexivity|]); eauto 10.
      * eexists _, _, _. rewrite <- app_assoc. simpl. split; [reflexivity|]. eauto 10.
      * eexists _, _, _. split; [reflexivity|]. eauto 10.
    + eexists _, _, _. split; [reflexivity|]. eauto 10.
  - eexists _, _, _. rewrite <- app_assoc. simpl. split; [reflexivity|]. eauto 10.
  - eexists _, _, _. split; [reflexivity|]. eauto 10.
Qed.

(** A failed listing call is logged, and nothing else happens. *)
Lemma fetchFiles_logs_failure (pageToken query : option string) (env : Env)
    (w : World State) (e : Exn) :
  fst (Api.listDriveFiles pageToken query env w) = Throw e →
  ∃ s',
    fetchFiles pageToken query env w
    = (Ok tt,
       mkWorld s' (trace w ++ [EvFetch (Api.drive_files_request pageToken query)
                                 (net env (trace w) (Api.drive_files_request pageToken query));
                               EvConsoleError listing_failed e])).
Proof.
  rewrite (ApiFacts.one_call_result _ _ _ env w (ApiFacts.listDriveFiles_run _ _)).
  unfold fetchFiles. unfold bind at 1. unfold setLoading at 1, modify at 1.
  set (w0 := mkWorld _ (trace w)).
  unfold try_finally, try_catch. unfold bind at 1.
  rewrite (ApiFacts.listDriveFiles_run pageToken query env w0).
  change (trace w0) with (trace w).
  destruct (net env (trace w) _) as [e0|res]; unfold checked.
  - intros [= ->]. unfold setLoading. unfold_monad. cbn [fst snd st trace].
    rewrite <- app_assoc. eexists. reflexivity.
  - destruct (ok res).
    + unfold parsed. destruct (body res) as [j|]; [discriminate|].
      intros [= <-]. unfold setLoading. unfold_monad. cbn [fst snd st trace].
      rewrite <- app_assoc. eexists. reflexivity.
    + intros [= <-]. unfold setLoading. unfold_monad. cbn [fst snd st trace].
      rewrite <- app_assoc. eexists. reflexivity.
Qed.

Lemma fetchFiles_never_rejects (pageToken query : option string) (env : Env)
    (w : World State) (e : Exn) :
  fst (fetchFiles pageToken query env w) ≠ Throw e.
Proof.
  destruct (fetchFiles_run pageToken query env w) as (r & s' & tail & Hrun & Hr & _).
  rewrite Hrun. destruct Hr as [-> | ->]; discriminate.
Qed.

End PickerFacts.

Example picker_opened_files :
  DriveFilePicker.files (st Scenario.picker_opened)
  = [Scenario.report; Scenario.notes; Scenario.folder]
  ∧ DriveFilePicker.nextPageToken (st Scenario.picker_opened) = Some "t1"
  ∧ DriveFilePicker.loading (st Scenario.picker_opened) = false.
Proof. vm_compute. auto. Qed.


Module PickerNavigation.
Import DriveFilePicker PickerFacts.

Lemma fetches_listing_tail (req : Request) (answer : FetchOutcome) (tail : list Event) :
  (tail = [] ∨ ∃ e, tail = [EvConsoleError "Failed to fetch drive files:" e]) →
  fetches (EvFetch req answer :: tail) = [req].
Proof. intros [->|[e ->]]; reflexivity. Qed.

(** A listing started without [await]: same effects, and the caller goes on. *)
Lemma no_await_fetchFiles_run (pageToken query : option string) (env : Env) (w : World State) :
  ∃ r w',
    no_await (fetchFiles pageToken query) env w = (r, w')
    ∧ fetches (new_events w w') = [Api.drive_files_request pageToken query]
    ∧ alerts (new_events w w') = []
    ∧ unhandled_rejections (new_events w w') = []
    ∧ same_navigation (st w) (st w').
Proof.
  destruct (fetchFiles_run pageToken query env w) as (r & s' & tail & Hrun & Hr & Htail & Hsame).
  unfold no_await. rewrite Hrun.
  destruct Hr as [-> | ->]; eexists _, _; (split; [reflexivity|]);
    rewrite new_events_app; simpl;
    (split; [by apply fetches_listing_tail|]);
    (split; [|split; [|exact Hsame]]); destruct Htail as [->|[e ->]]; reflexivity.
Qed.

Lemma pop_snoc {A} (l : list A) (x : A) : pop (l ++ [x]) = Some (l, x).
Proof.
  induction l as [|y l IH]; simpl; [reflexivity|].
  by rewrite IH.
Qed.

(** No request built without a page token carries one. *)
Lemma first_page_request_has_no_token (query : option string) (v : string) :
  ("pageToken", v) ∉ req_query (Api.drive_files_request None query).
Proof.
  unfold Api.drive_files_request, Api.set_if. simpl.
  destruct query as [q|]; [destruct (Js.truthy_string q)|]; simpl.
  - intros Hin. apply list_elem_of_singleton in Hin. discriminate.
  - apply not_elem_of_nil.
  - apply not_elem_of_nil.
Qed.

(** [handleNextPage] pushes the sentinel, whatever token the server gave. *)
Lemma handleNextPage_run (env : Env) (w : World State) (token : string) :
  nextPageToken (st w) = Some token → token ≠ Js.empty →
  ∃ r w',
    dispatch handleNextPage env w = (r, w')
    ∧ fetches (new_events w w')
      = [Api.drive_files_request (Some token) (Some (searchQuery (st w)))]
    ∧ prevTokens (st w') = prevTokens (st w) ++ [Js.empty]
    ∧ searchQuery (st w') = searchQuery (st w)
    ∧ selectedFiles (st w') = selectedFiles (st w).
Proof.
  intros Htok Hne. unfold dispatch, handleNextPage. rewrite Htok.
  assert (Js.truthy_string token = true) as ->.
  { unfold Js.truthy_string. apply negb_true_iff, String.eqb_neq. exact Hne. }
  unfold bind at 1. unfold setPrevTokens, modify at 1.
  set (w0 := mkWorld _ (trace w)).
  destruct (no_await_fetchFiles_run (Some token) (Some (searchQuery (st w))) env w0)
    as (r & w' & Hrun & Hf & _ & _ & (Hq & Hsel & _ & Hprev)).
  rewrite Hrun. eexists _, _. split; [reflexivity|].
  split; [exact Hf|]. split; [exact Hprev|]. split; [exact Hq|exact Hsel].
Qed.

Lemma handlePrevPage_run (env : Env) (w : World State) (rest : list string) (token : string) :
  prevTokens (st w) = rest ++ [token] →
  ∃ r w',
    dispatch handlePrevPage env w = (r, w')
    ∧ fetches (new_events w w')
      = [Api.drive_files_request (if Js.truthy_string token then Some token else None)
                                 (Some (searchQuery (st w)))]
    ∧ prevTokens (st w') = rest
    ∧ searchQuery (st w') = searchQuery (st w)
    ∧ selectedFiles (st w') = selectedFiles (st w).
Proof.
  intros Hprev. unfold dispatch, handlePrevPage. rewrite Hprev, pop_snoc.
  unfold bind at 1. unfold setPrevTokens, modify at 1.
  set (w0 := mkWorld _ (trace w)).
  destruct (no_await_fetchFiles_run (if Js.truthy_string token then Some token else None)
              (Some (searchQuery (st w))) env w0)
    as (r & w' & Hrun & Hf & _ & _ & (Hq & Hsel & _ & Hp)).
  rewrite Hrun. eexists _, _. split; [reflexivity|].
  split; [exact Hf|]. split; [exact Hp|]. split; [exact Hq|exact Hsel].
Qed.

Lemma handleSearch_run (env : Env) (w : World State) :
  ∃ r w',
    dispatch handleSearch env w = (r, w')
    ∧ fetches (new_events w w')
      = [Api.drive_files_request None (Some (searchQuery (st w)))]
    ∧ prevTokens (st w') = []
    ∧ searchQuery (st w') = searchQuery (st w)
    ∧ selectedFiles (st w') = selectedFiles (st w).
Proof.
  unfold dispatch, handleSearch.
  unfold bind at 1. unfold setPrevTokens, modify at 1.
  set (w0 := mkWorld _ (trace w)).
  destruct (no_await_fetchFiles_run None (Some (searchQuery (st w))) env w0)
    as (r & w' & Hrun & Hf & _ & _ & (Hq & Hsel & _ & Hp)).
  rewrite Hrun. eexists _, _. split; [reflexivity|].
  split; [exact Hf|]. split; [exact Hp|]. split; [exact Hq|exact Hsel].
Qed.

Lemma pop_Some {A} (l rest : list A) (x : A) : pop l = Some (rest, x) → l = rest ++ [x].
Proof.
  revert rest. induction l as [|y l IH]; intros rest; simpl; [discriminate|].
  destruct (pop l) as [[rest' z]|] eqn:Hpop.
  - intros [= <- <-]. simpl. f_equal. by apply IH.
  - intros [= <- <-]. destruct l as [|z l]; [reflexivity|].
    simpl in Hpop. destruct (pop l) as [[? ?]|]; discriminate.
Qed.

(** Pagination and search leave the selection as it is. *)
Lemma handleNextPage_keeps_selection (env : Env) (w : World State) :
  selectedFiles (st (after handleNextPage env w)) = selectedFiles (st w).
Proof.
  unfold after.
  destruct (nextPageToken (st w)) as [token|] eqn:Htok.
  - destruct (String.eqb token Js.empty) eqn:Hempty.
    + unfold dispatch, handleNextPage. rewrite Htok. unfold Js.truthy_string.
      rewrite Hempty. reflexivity.
    + apply String.eqb_neq in Hempty.
      destruct (handleNextPage_run env w token Htok Hempty) as (r & w' & Hrun & _ & _ & _ & Hsel).
      rewrite Hrun. exact Hsel.
  - unfold dispatch, handleNextPage. rewrite Htok. reflexivity.
Qed.

Lemma handlePrevPage_keeps_selection (env : Env) (w : World State) :
  selectedFiles (st (after handlePrevPage env w)) = selectedFiles (st w).
Proof.
  unfold after.
  destruct (pop (prevTokens (st w))) as [[rest token]|] eqn:Hpop.
  - apply pop_Some in Hpop.
    destruct (handlePrevPage_run env w rest token Hpop) as (r & w' & Hrun & _ & _ & _ & Hsel).
    rewrite Hrun. exact Hsel.
  - unfold dispatch, handlePrevPage. rewrite Hpop. reflexivity.
Qed.

Lemma handleSearch_keeps_selection (env : Env) (w : World State) :
  selectedFiles (st (after handleSearch env w)) = selectedFiles (st w).
Proof.
  unfold after.
  destruct (handleSearch_run env w) as (r & w' & Hrun & _ & _ & _ & Hsel).
  rewrite Hrun. exact Hsel.
Qed.

End PickerNavigation.


(** ** The import batch *)

Module PickerImport.
Import DriveFilePicker PickerFacts PickerNavigation.

(** One import is one request; it returns exactly on a 2xx answer with a JSON
    body and throws otherwise. *)
Lemma importFile_run {σ} (file : DriveFile.t) (env : Env) (w : World σ) :
  let answer := net env (trace w) (Api.import_request file) in
  ∃ r,
    Api.importFile file env w
    = (r, mkWorld (st w) (trace w ++ [EvFetch (Api.import_request file) answer]))
    ∧ (if succeeded answer then ∃ j, r = Ok j else ∃ e, r = Throw e).
Proof.
  intros answer. unfold Api.importFile. unfold_monad. fold answer.
  destruct answer as [e|res]; simpl; [eauto|].
  destruct (ok res); simpl.
  - destruct (body res) as [j|]; simpl; eauto.
  - destruct (body res) as [j|]; simpl; [|eauto].
    destruct (Js.get_prop j "error") as [v|e|] eqn:Hprop; simpl; eauto.
    destruct j; discriminate.
Qed.

Lemma successes_app (l1 l2 : list Event) : successes (l1 ++ l2) = (successes l1 + successes l2)%nat.
Proof.
  unfold successes, fetch_log. by rewrite omap_app, map_app, List.filter_app, length_app.
Qed.

Lemma failures_app (l1 l2 : list Event) : failures (l1 ++ l2) = (failures l1 + failures l2)%nat.
Proof.
  unfold failures, fetch_log. by rewrite omap_app, map_app, List.filter_app, length_app.
Qed.

Lemma alerts_app (l1 l2 : list Event) : alerts (l1 ++ l2) = alerts l1 ++ alerts l2.
Proof. unfold alerts. by rewrite omap_app. Qed.

Lemma callbacks_app (l1 l2 : list Event) : callbacks (l1 ++ l2) = callbacks l1 ++ callbacks l2.
Proof. unfold callbacks. by rewrite omap_app. Qed.

Lemma console_errors_app (l1 l2 : list Event) :
  console_errors (l1 ++ l2) = console_errors l1 ++ console_errors l2.
Proof. unfold console_errors. by rewrite omap_app. Qed.

Lemma unhandled_rejections_app (l1 l2 : list Event) :
  unhandled_rejections (l1 ++ l2) = unhandled_rejections l1 ++ unhandled_rejections l2.
Proof. unfold unhandled_rejections. by rewrite omap_app. Qed.

(** The loop attempts every file of the batch in order, whatever happened to
    the files before it, and counts each attempt once. *)
Lemma import_loop_run (batch : list DriveFile.t) :
  ∀ (successCount errorCount : nat) (env : Env) (w : World State),
  ∃ evs,
    import_loop batch successCount errorCount env w
    = (Ok ((successCount + successes evs)%nat, (errorCount + failures evs)%nat),
       mkWorld (st w) (trace w ++ evs))
    ∧ fetches evs = map Api.import_request batch
    ∧ (successes evs + failures evs)%nat = length batch
    ∧ length (console_errors evs) = failures evs
    ∧ alerts evs = []
    ∧ callbacks evs = []
    ∧ unhandled_rejections evs = [].
Proof.
  induction batch as [|file rest IH]; intros successCount errorCount env w.
  - exists []. simpl. unfold ret. rewrite app_nil_r, !Nat.add_0_r.
    destruct w; simpl. repeat split; reflexivity.
  - simpl. unfold bind at 1. unfold try_catch at 1. unfold bind at 1.
    destruct (importFile_run file env w) as (r & Hrun & Hr). rewrite Hrun.
    set (answer := net env (trace w) (Api.import_request file)) in *.
    destruct (succeeded answer) eqn:Hok.
    + destruct Hr as [j ->]. unfold ret at 1. cbn [fst snd].
      destruct (IH (S successCount) errorCount env
                  (mkWorld (st w) (trace w ++ [EvFetch (Api.import_request file) answer])))
        as (evs & Hloop & Hf & Hcount & Hce & Ha & Hcb & Hu).
      rewrite Hloop. exists (EvFetch (Api.import_request file) answer :: evs).
      cbn [st trace]. rewrite <- app_assoc. cbn [app].
      change (EvFetch (Api.import_request file) answer :: evs)
        with ([EvFetch (Api.import_request file) answer] ++ evs).
      rewrite successes_app, failures_app, fetches_app, console_errors_app,
        alerts_app, callbacks_app, unhandled_rejections_app.
      assert (successes [EvFetch (Api.import_request file) answer] = 1%nat) as ->
        by (unfold successes; simpl; by rewrite Hok).
      assert (failures [EvFetch (Api.import_request file) answer] = 0%nat) as ->
        by (unfold failures; simpl; by rewrite Hok).
      simpl. rewrite Hf, Ha, Hcb, Hu.
      split; [do 2 f_equal; f_equal; lia|].
      repeat split; try reflexivity; try lia.
    + destruct Hr as [e ->]. unfold bind at 1. unfold console_error, emit at 1.
      unfold ret at 1. cbn [fst snd st trace].
      set (msg := "Failed to import " +:+ DriveFile.name file +:+ ":").
      destruct (IH successCount (S errorCount) env
                  (mkWorld (st w) ((trace w ++ [EvFetch (Api.import_request file) answer])
                                   ++ [EvConsoleError msg e])))
        as (evs & Hloop & Hf & Hcount & Hce & Ha & Hcb & Hu).
      rewrite Hloop.
      exists ([EvFetch (Api.import_request file) answer] ++ [EvConsoleError msg e] ++ evs).
      cbn [st trace]. rewrite <- !app_assoc.
      rewrite !successes_app, !failures_app, !fetches_app, !console_errors_app,
        !alerts_app, !callbacks_app, !unhandled_rejections_app.
      assert (successes [EvFetch (Api.import_request file) answer] = 0%nat) as ->
        by (unfold successes; simpl; by rewrite Hok).
      assert (failures [EvFetch (Api.import_request file) answer] = 1%nat) as ->
        by (unfold failures; simpl; by rewrite Hok).
      simpl. rewrite Hf, Ha, Hcb, Hu.
      split; [do 2 f_equal; f_equal; lia|].
      repeat split; try reflexivity; try lia.
Qed.

(** The whole handler, for a batch that is not empty. *)
Lemma handleImport_run (env : Env) (w : World State) :
  filesToImport (st w) ≠ [] →
  ∃ s' evs,
    dispatch handleImport env w = (Ok tt, mkWorld s' (trace w ++ evs))
    ∧ fetches evs = map Api.import_request (filesToImport (st w))
    ∧ (successes evs + failures evs)%nat = length (filesToImport (st w))
    ∧ length (console_errors evs) = failures evs
    ∧ alerts evs = (if (0 <? failures evs)%nat
                    then [summary (successes evs) (failures evs)]
                    else [])
    ∧ callbacks evs = [OnImport; OnClose]
    ∧ unhandled_rejections evs = []
    ∧ selectedFiles s' = selectedFiles (st w).
Proof.
  intros Hne. unfold dispatch, handleImport.
  destruct (filesToImport (st w)) as [|f batch] eqn:Hbatch; [done|].
  cbn [length Nat.eqb].
  unfold bind at 1. unfold setImporting at 1, modify at 1.
  unfold bind at 1.
  set (w0 := mkWorld _ (trace w)).
  destruct (import_loop_run (f :: batch) 0 0 env w0)
    as (evs & Hloop & Hf & Hcount & Hce & Ha & Hcb & Hu).
  rewrite Hloop. cbn [fst snd st trace Nat.add].
  unfold bind at 1. unfold setImporting at 1, modify at 1. cbn [st trace].
  destruct (0 <? failures evs)%nat eqn:Herr.
  - unfold_monad. cbn [st trace].
    eexists _, (evs ++ [EvAlert (summary (successes evs) (failures evs));
                        EvCallback OnImport; EvCallback OnClose]).
    split.
    { f_equal. f_equal. rewrite <- !app_assoc. reflexivity. }
    rewrite successes_app, failures_app, fetches_app, console_errors_app,
      alerts_app, callbacks_app, unhandled_rejections_app.
    rewrite Hf, Ha, Hcb, Hu.
    change (successes [_; _; _]) with 0%nat. change (failures [_; _; _]) with 0%nat.
    rewrite !Nat.add_0_r, Herr. simpl. rewrite app_nil_r, app_nil_r.
    repeat split; try reflexivity; try assumption.
  - unfold_monad. cbn [st trace].
    eexists _, (evs ++ [EvCallback OnImport; EvCallback OnClose]).
    split.
    { f_equal. f_equal. rewrite <- !app_assoc. reflexivity. }
    rewrite successes_app, failures_app, fetches_app, console_errors_app,
      alerts_app, callbacks_app, unhandled_rejections_app.
    rewrite Hf, Ha, Hcb, Hu.
    change (successes [_; _]) with 0%nat. change (failures [_; _]) with 0%nat.
    rewrite !Nat.add_0_r, Herr. simpl. rewrite app_nil_r, app_nil_r.
    repeat split; try reflexivity; try assumption.
Qed.

(** With nothing to import the handler returns at once. *)
Lemma handleImport_nothing (env : Env) (w : World State) :
  filesToImport (st w) = [] → dispatch handleImport env w = (Ok tt, w).
Proof.
  intros Hnil. unfold dispatch, handleImport. rewrite Hnil. reflexivity.
Qed.

Lemma summary_one_one :
  summary 1 1 = "Imported 1 file(s). 1 file(s) failed or already exist.".
Proof. reflexivity. Qed.

End PickerImport.

(** * The claims *)

Section ApiClaims.
Import ApiFacts.




(** The four getters and [logout] do not look at the status: an error
    response with a JSON body is returned like any other body. *)
Example getters_return_error_bodies :
  fst (Api.getAuthStatus Scenario.failing Scenario.nowhere)
  = Ok (JObj [("error", JStr "Internal Server Error")])
  ∧ fst (Api.listFiles Scenario.failing Scenario.nowhere)
    = Ok (JObj [("error", JStr "Internal Server Error")])
  ∧ fst (Api.logout Scenario.failing Scenario.nowhere) = Ok tt.
Proof. vm_compute. auto. Qed.

End ApiClaims.

Section AppClaims.
Import App ApiFacts AppFacts.

(** C7.  Logging out sends [POST /api/auth/logout]; once that call has been
    answered, by any response at all, the component is unauthenticated and its
    file list is empty. *)
Theorem C7_logout_then_local_reset (env : Env) (w : World State) (res : Response) :
  net env (trace w) Api.logout_request = Resolves res →
  dispatch handleLogout env w
  = (Ok tt,
     mkWorld (mkState (Some (JBool false)) (Some (JArr []))
                      (loading (st w)) (searchQuery (st w)) (showPicker (st w)))
             (trace w ++ [EvFetch Api.logout_request (Resolves res)]))
  ∧ Api.logout_request = mkRequest POST "/api/auth/logout" [] [] None
  ∧ screen (st (after handleLogout env w)) = LoginScreen.
Proof.
  intros Hnet.
  assert (dispatch handleLogout env w
          = (Ok tt,
             mkWorld (mkState (Some (JBool false)) (Some (JArr []))
                        (loading (st w)) (searchQuery (st w)) (showPicker (st w)))
               (trace w ++ [EvFetch Api.logout_request (Resolves res)]))) as Hrun.
  { unfold dispatch, handleLogout. unfold bind at 1.
    rewrite (logout_run env w), Hnet. reflexivity. }
  split; [exact Hrun|]. split; [reflexivity|].
  unfold after. rewrite Hrun. reflexivity.
Qed.

Lemma C7_logout_then_local_reset_witness :
  net Scenario.failing (trace Scenario.signed_in) Api.logout_request
  = Resolves Scenario.internal_error
  ∧ dispatch handleLogout Scenario.failing Scenario.signed_in
    = (Ok tt,
       mkWorld (mkState (Some (JBool false)) (Some (JArr []))
                        (loading (st Scenario.signed_in))
                        (searchQuery (st Scenario.signed_in))
                        (showPicker (st Scenario.signed_in)))
               (trace Scenario.signed_in
                ++ [EvFetch Api.logout_request (Resolves Scenario.internal_error)]))
  ∧ Api.logout_request = mkRequest POST "/api/auth/logout" [] [] None
  ∧ screen (st (after handleLogout Scenario.failing Scenario.signed_in)) = LoginScreen.
Proof.
  split; [reflexivity|].
  apply (C7_logout_then_local_reset Scenario.failing Scenario.signed_in
           Scenario.internal_error).
  reflexivity.
Defined.

Example signed_in_dashboard :
  screen (st Scenario.signed_in) = Dashboard
  ∧ fetches (trace Scenario.signed_in) = [Api.auth_status_request; Api.files_request].
Proof. vm_compute. auto. Qed.

End AppClaims.

Section FileCardClaims.
Import FileCard ApiFacts.

(** The handler once the user has confirmed: one [DELETE] call, then the
    parent's callback on a 2xx answer and an alert otherwise. *)
Lemma handleDelete_confirmed (env : Env) (tr : list Event) (file : DataroomFile.t) :
  confirm_answer env tr (delete_question file) = true →
  let req := Api.delete_request (DataroomFile.id file) in
  let answer := net env (tr ++ [EvConfirm (delete_question file)]) req in
  dispatch (handleDelete file) env (mkWorld tt tr)
  = (Ok tt,
     mkWorld tt (tr ++ [EvConfirm (delete_question file); EvFetch req answer;
                        match answer with
                        | Resolves res =>
                            if ok res then EvCallback OnDelete
                            else EvAlert "Failed to delete file. Please try again."
                        | Rejects _ => EvAlert "Failed to delete file. Please try again."
                        end])).
Proof.
  intros Hyes. cbv zeta. unfold dispatch, handleDelete. unfold bind at 1.
  unfold confirm at 1. cbn [st trace]. rewrite Hyes. cbn [negb].
  unfold try_catch. unfold bind at 1.
  rewrite (deleteFile_run (DataroomFile.id file) env). cbn [st trace].
  unfold checked.
  destruct (net env _ _) as [e|res].
  - unfold_monad. cbn [st trace]. rewrite <- !app_assoc. reflexivity.
  - destruct (ok res); unfold_monad; cbn [st trace]; rewrite <- !app_assoc; reflexivity.
Qed.

(** C10.  Once the user has confirmed, deleting the file with id 42 sends
    exactly one request, [DELETE /api/files/42], and the refresh callback of
    the parent is called (once) exactly when that request is answered with a
    2xx status; on any other status [deleteFile] throws and the callback is
    not called. *)
Theorem C10_delete_then_refresh_on_2xx (env : Env) (tr : list Event) (file : DataroomFile.t) :
  DataroomFile.id file = 42 →
  confirm_answer env tr (delete_question file) = true →
  let w := mkWorld tt tr in
  let evs := new_events w (after (handleDelete file) env w) in
  let req := mkRequest DELETE "/api/files/42" [] [] None in
  let answer := net env (tr ++ [EvConfirm (delete_question file)]) req in
  fst (dispatch (handleDelete file) env w) = Ok tt
  ∧ fetch_log evs = [(req, answer)]
  ∧ (∀ res, answer = Resolves res →
            (callbacks evs = [OnDelete] ↔ 200 ≤ status res ≤ 299)
            ∧ (callbacks evs = [] ↔ ¬ 200 ≤ status res ≤ 299))
  ∧ (∀ e, answer = Rejects e → callbacks evs = [])
  ∧ throws_message (σ := unit) (Api.deleteFile 42) req "Failed to delete file".
Proof.
  intros Hid Hyes. cbv zeta. unfold after.
  rewrite (handleDelete_confirmed env tr file Hyes). cbn [fst snd].
  rewrite new_events_app. rewrite Hid.
  change (Api.delete_request 42) with (mkRequest DELETE "/api/files/42" [] [] None).
  set (req := mkRequest DELETE "/api/files/42" [] [] None).
  set (answer := net env _ req). clearbody answer.
  split; [reflexivity|].
  assert (throws_message (σ := unit) (Api.deleteFile 42) req "Failed to delete file") as Hthrow.
  { intros env0 w0 res Hnet Hok.
    rewrite (one_call_result _ _ _ env0 w0 (deleteFile_run 42)).
    change (Api.delete_request 42) with req. rewrite Hnet.
    unfold checked. by rewrite Hok. }
  destruct answer as [e|res].
  - split; [reflexivity|]. split; [discriminate|]. split; [reflexivity|exact Hthrow].
  - split; [by destruct (ok res)|]. split; [|split; [discriminate|exact Hthrow]].
    intros res' [= <-]. unfold ok.
    destruct (200 <=? status res) eqn:H1; destruct (status res <=? 299) eqn:H2;
      cbn; (split; (split; [intros H; try discriminate H; lia | intros H; try reflexivity; lia])).
Qed.

Lemma C10_delete_then_refresh_on_2xx_witness :
  DataroomFile.id Scenario.stored_report = 42
  ∧ confirm_answer Scenario.env [] (delete_question Scenario.stored_report) = true
  ∧ fst (dispatch (handleDelete Scenario.stored_report) Scenario.env (mkWorld tt [])) = Ok tt
  ∧ fetch_log (new_events (mkWorld tt [])
                 (after (handleDelete Scenario.stored_report) Scenario.env (mkWorld tt [])))
    = [(mkRequest DELETE "/api/files/42" [] [] None,
        net Scenario.env ([] ++ [EvConfirm (delete_question Scenario.stored_report)])
            (mkRequest DELETE "/api/files/42" [] [] None))]
  ∧ (∀ res,
       net Scenario.env ([] ++ [EvConfirm (delete_question Scenario.stored_report)])
           (mkRequest DELETE "/api/files/42" [] [] None) = Resolves res →
       (callbacks (new_events (mkWorld tt [])
                     (after (handleDelete Scenario.stored_report) Scenario.env (mkWorld tt [])))
        = [OnDelete] ↔ 200 ≤ status res ≤ 299)
       ∧ (callbacks (new_events (mkWorld tt [])
                       (after (handleDelete Scenario.stored_report) Scenario.env (mkWorld tt [])))
          = [] ↔ ¬ 200 ≤ status res ≤ 299))
  ∧ (∀ e,
       net Scenario.env ([] ++ [EvConfirm (delete_question Scenario.stored_report)])
           (mkRequest DELETE "/api/files/42" [] [] None) = Rejects e →
       callbacks (new_events (mkWorld tt [])
                    (after (handleDelete Scenario.stored_report) Scenario.env (mkWorld tt [])))
       = [])
  ∧ throws_message (σ := unit) (Api.deleteFile 42)
      (mkRequest DELETE "/api/files/42" [] [] None) "Failed to delete file".
Proof.
  split; [reflexivity|]. split; [reflexivity|].
  apply (C10_delete_then_refresh_on_2xx Scenario.env [] Scenario.stored_report);
    reflexivity.
Defined.

(** The card of the scenario: confirmed, answered with [200], refreshed; and
    answered with [500], an alert and no refresh. *)
Example delete_report :
  new_events (mkWorld tt []) (after (handleDelete Scenario.stored_report) Scenario.env (mkWorld tt []))
  = [EvConfirm (delete_question Scenario.stored_report);
     EvFetch (mkRequest DELETE "/api/files/42" [] [] None)
             (Scenario.json_ok (JObj [("success", JBool true)]));
     EvCallback OnDelete]
  ∧ callbacks (trace (after (handleDelete Scenario.stored_report) Scenario.failing (mkWorld tt []))) = []
  ∧ alerts (trace (after (handleDelete Scenario.stored_report) Scenario.failing (mkWorld tt [])))
    = ["Failed to delete file. Please try again."].
Proof. vm_compute. auto. Qed.

End FileCardClaims.

Section PickerClaims.
Import DriveFilePicker PickerFacts PickerNavigation.

(** C8.  Submitting a search empties the pagination history and issues one
    listing request that carries no page token and whose query is the search
    text of the input box (an empty text adds no [query] pair at all). *)
Theorem C8_search_resets_pagination (env : Env) (w : World State) :
  let w' := after handleSearch env w in
  prevTokens (st w') = []
  ∧ fetches (new_events w w')
    = [Api.drive_files_request None (Some (searchQuery (st w)))]
  ∧ (∀ v, ("pageToken", v) ∉
          req_query (Api.drive_files_request None (Some (searchQuery (st w)))))
  ∧ req_query (Api.drive_files_request None (Some (searchQuery (st w))))
    = (if Js.truthy_string (searchQuery (st w))
       then [("query", searchQuery (st w))]
       else []).
Proof.
  unfold after.
  destruct (handleSearch_run env w) as (r & w' & Hrun & Hf & Hp & _ & _).
  rewrite Hrun. cbn [snd].
  split; [exact Hp|]. split; [exact Hf|].
  split; [intros v; apply first_page_request_has_no_token|].
  unfold Api.drive_files_request, Api.set_if. simpl.
  by destruct (Js.truthy_string _).
Qed.

(** C6.  From a page reached with an empty history, one "next" followed by
    one "previous" ends in a listing request without page token, whatever
    token the server had provided for the next page. *)
Theorem C6_previous_after_one_next (env : Env) (w : World State) (token : string) :
  prevTokens (st w) = [] →
  nextPageToken (st w) = Some token →
  Js.truthy_string token = true →
  let w1 := after handleNextPage env w in
  let w2 := after handlePrevPage env w1 in
  fetches (new_events w w1)
  = [Api.drive_files_request (Some token) (Some (searchQuery (st w)))]
  ∧ fetches (new_events w1 w2)
    = [Api.drive_files_request None (Some (searchQuery (st w)))]
  ∧ (∀ v, ("pageToken", v) ∉
          req_query (Api.drive_files_request None (Some (searchQuery (st w)))))
  ∧ prevTokens (st w2) = [].
Proof.
  intros Hempty Htok Htruthy. unfold after.
  assert (token ≠ Js.empty) as Hne.
  { intros ->. discriminate Htruthy. }
  destruct (handleNextPage_run env w token Htok Hne)
    as (r1 & w1 & Hrun1 & Hf1 & Hp1 & Hq1 & _).
  rewrite Hrun1. cbn [snd]. rewrite Hempty in Hp1. simpl in Hp1.
  destruct (handlePrevPage_run env w1 [] Js.empty Hp1)
    as (r2 & w2 & Hrun2 & Hf2 & Hp2 & _ & _).
  rewrite Hrun2. cbn [snd]. change (Js.truthy_string Js.empty) with false in Hf2.
  cbv iota in Hf2. rewrite Hq1 in Hf2.
  split; [exact Hf1|]. split; [exact Hf2|].
  split; [intros v; apply first_page_request_has_no_token|exact Hp2].
Qed.

Lemma C6_previous_after_one_next_witness :
  prevTokens (st Scenario.picker_opened) = []
  ∧ nextPageToken (st Scenario.picker_opened) = Some "t1"
  ∧ Js.truthy_string "t1" = true
  ∧ fetches (new_events Scenario.picker_opened Scenario.on_page_two)
    = [Api.drive_files_request (Some "t1") (Some (searchQuery (st Scenario.picker_opened)))]
  ∧ fetches (new_events Scenario.on_page_two
               (after handlePrevPage Scenario.env Scenario.on_page_two))
    = [Api.drive_files_request None (Some (searchQuery (st Scenario.picker_opened)))]
  ∧ (∀ v, ("pageToken", v) ∉
          req_query (Api.drive_files_request None
                       (Some (searchQuery (st Scenario.picker_opened)))))
  ∧ prevTokens (st (after handlePrevPage Scenario.env Scenario.on_page_two)) = [].
Proof.
  split; [vm_compute; reflexivity|].
  split; [vm_compute; reflexivity|].
  split; [reflexivity|].
  apply (C6_previous_after_one_next Scenario.env Scenario.picker_opened "t1").
  - vm_compute. reflexivity.
  - vm_compute. reflexivity.
  - reflexivity.
Defined.

(** C1.  The pagination history as the handlers maintain it.  "Next" appends
    the first-page placeholder, never the token of the page on display, so
    whatever the history, a "previous" that follows a "next" refetches without
    page token.  In particular, after two "next" clicks (pages fetched with no
    token, [t1], [t2]) one "previous" shows the first page again, not the page
    that was fetched with [t1], and the history still holds one entry. *)
Theorem C1_previous_after_two_next_refetches_first_page :
  (fetches (trace Scenario.back_from_page_three)
   = [Api.drive_files_request None None;
      Api.drive_files_request (Some "t1") (Some Js.empty);
      Api.drive_files_request (Some "t2") (Some Js.empty);
      Api.drive_files_request None (Some Js.empty)]
   ∧ prevTokens (st Scenario.on_page_three) = [Js.empty; Js.empty]
   ∧ prevTokens (st Scenario.back_from_page_three) = [Js.empty]
   ∧ files (st Scenario.back_from_page_three)
     = [Scenario.report; Scenario.notes; Scenario.folder]
   ∧ fetches (new_events Scenario.on_page_three Scenario.back_from_page_three)
     ≠ [Api.drive_files_request (Some "t1") (Some Js.empty)])
  ∧ (∀ (env env' : Env) (w : World State) (token : string),
       nextPageToken (st w) = Some token →
       Js.truthy_string token = true →
       prevTokens (st (after handleNextPage env w)) = prevTokens (st w) ++ [Js.empty]
       ∧ fetches (new_events (after handleNextPage env w)
                    (after handlePrevPage env' (after handleNextPage env w)))
         = [Api.drive_files_request None (Some (searchQuery (st w)))]).
Proof.
  split.
  { vm_compute. repeat split; try reflexivity. discriminate. }
  intros env env' w token Htok Htruthy. unfold after.
  assert (token ≠ Js.empty) as Hne.
  { intros ->. discriminate Htruthy. }
  destruct (handleNextPage_run env w token Htok Hne)
    as (r1 & w1 & Hrun1 & _ & Hp1 & Hq1 & _).
  rewrite Hrun1. cbn [snd]. split; [exact Hp1|].
  destruct (handlePrevPage_run env' w1 (prevTokens (st w)) Js.empty Hp1)
    as (r2 & w2 & Hrun2 & Hf2 & _).
  rewrite Hrun2. cbn [snd]. change (Js.truthy_string Js.empty) with false in Hf2.
  cbv iota in Hf2. rewrite Hq1 in Hf2. exact Hf2.
Qed.

End PickerClaims.

Section ImportClaims.
Import DriveFilePicker PickerFacts PickerNavigation PickerImport.

(** C4, as the code has it.  The import handler calls the import endpoint
    once for every file of the batch, in order and one after the other; a
    failed call is counted and logged and the loop goes on with the remaining
    files; no other request (nothing that would undo an import) is made; when
    at least one call failed, one alert reports the two totals, and when none
    failed there is no alert.  With two files and one failure the alert reads
    "Imported 1 file(s). 1 file(s) failed or already exist." *)
Theorem C4_batch_import_tolerates_failures (env : Env) (w : World State) :
  (0 < length (filesToImport (st w)))%nat →
  let w' := after handleImport env w in
  let evs := new_events w w' in
  fst (dispatch handleImport env w) = Ok tt
  ∧ fetches evs = map Api.import_request (filesToImport (st w))
  ∧ (successes evs + failures evs)%nat = length (filesToImport (st w))
  ∧ length (console_errors evs) = failures evs
  ∧ alerts evs = (if (0 <? failures evs)%nat
                  then [summary (successes evs) (failures evs)]
                  else [])
  ∧ callbacks evs = [OnImport; OnClose]
  ∧ (length (filesToImport (st w)) = 2%nat → failures evs = 1%nat →
     alerts evs = ["Imported 1 file(s). 1 file(s) failed or already exist."]).
Proof.
  intros Hlen0. unfold after.
  assert (filesToImport (st w) ≠ []) as Hne.
  { intros Hnil. rewrite Hnil in Hlen0. simpl in Hlen0. lia. }
  destruct (handleImport_run env w Hne)
    as (s' & evs & Hrun & Hf & Hcount & Hce & Ha & Hcb & _ & _).
  rewrite Hrun. cbn [fst snd]. rewrite new_events_app. cbv zeta.
  repeat (split; [assumption || reflexivity|]).
  intros Hlen Hfail. rewrite Ha, Hfail.
  assert (successes evs = 1%nat) as -> by lia.
  reflexivity.
Qed.

Lemma C4_batch_import_tolerates_failures_witness :
  (0 < length (filesToImport (st Scenario.two_selected)))%nat
  ∧ fst (dispatch handleImport Scenario.env Scenario.two_selected) = Ok tt
  ∧ fetches (new_events Scenario.two_selected Scenario.two_imported)
    = map Api.import_request (filesToImport (st Scenario.two_selected))
  ∧ (successes (new_events Scenario.two_selected Scenario.two_imported)
     + failures (new_events Scenario.two_selected Scenario.two_imported))%nat
    = length (filesToImport (st Scenario.two_selected))
  ∧ length (console_errors (new_events Scenario.two_selected Scenario.two_imported))
    = failures (new_events Scenario.two_selected Scenario.two_imported)
  ∧ alerts (new_events Scenario.two_selected Scenario.two_imported)
    = (if (0 <? failures (new_events Scenario.two_selected Scenario.two_imported))%nat
       then [summary (successes (new_events Scenario.two_selected Scenario.two_imported))
                     (failures (new_events Scenario.two_selected Scenario.two_imported))]
       else [])
  ∧ callbacks (new_events Scenario.two_selected Scenario.two_imported)
    = [OnImport; OnClose]
  ∧ (length (filesToImport (st Scenario.two_selected)) = 2%nat →
     failures (new_events Scenario.two_selected Scenario.two_imported) = 1%nat →
     alerts (new_events Scenario.two_selected Scenario.two_imported)
     = ["Imported 1 file(s). 1 file(s) failed or already exist."]).
Proof.
  split; [vm_compute; lia|].
  apply (C4_batch_import_tolerates_failures Scenario.env Scenario.two_selected).
  vm_compute. lia.
Defined.

(** C4 as stated fails on a batch without failure: with only [f1] ticked the
    import succeeds, the handler finishes (both callbacks run) and no alert
    reports the totals. *)
Lemma C4_counterexample_no_alert_without_failure :
  filesToImport (st Scenario.one_selected) = [Scenario.report]
  ∧ fetches (new_events Scenario.one_selected
               (after handleImport Scenario.env Scenario.one_selected))
    = [Api.import_request Scenario.report]
  ∧ successes (new_events Scenario.one_selected
                 (after handleImport Scenario.env Scenario.one_selected)) = 1%nat
  ∧ callbacks (new_events Scenario.one_selected
                 (after handleImport Scenario.env Scenario.one_selected))
    = [OnImport; OnClose]
  ∧ alerts (new_events Scenario.one_selected
              (after handleImport Scenario.env Scenario.one_selected)) = []
  ∧ ¬ reports_totals Scenario.env Scenario.one_selected.
Proof.
  vm_compute. repeat split; try reflexivity. discriminate.
Qed.

(** The two-file batch of the scenario: [f1] is imported, [f2] is refused. *)
Example two_files_one_failure :
  let w := Scenario.two_selected in
  let evs := new_events w (after handleImport Scenario.env w) in
  filesToImport (st w) = [Scenario.report; Scenario.notes]
  ∧ map succeeded (map snd (fetch_log evs)) = [true; false]
  ∧ alerts evs = ["Imported 1 file(s). 1 file(s) failed or already exist."].
Proof. vm_compute. auto. Qed.

Lemma new_events_refl {σ} (w : World σ) : new_events w w = [].
Proof. unfold new_events. apply drop_all. Qed.

Lemma elem_of_filesToImport (s : State) (f : DriveFile.t) :
  f ∈ filesToImport s ↔ f ∈ files s ∧ DriveFile.id f ∈ selectedFiles s.
Proof.
  unfold filesToImport. rewrite !list_elem_of_In, filter_In, bool_decide_eq_true.
  reflexivity.
Qed.

Lemma import_request_id (f g : DriveFile.t) :
  Api.import_request f = Api.import_request g → DriveFile.id f = DriveFile.id g.
Proof. unfold Api.import_request, Api.import_body. intros [= H _]. exact H. Qed.

(** Every error the loop logs names a file of the batch. *)
Lemma import_loop_logs_batch_files (batch : list DriveFile.t) :
  ∀ (successCount errorCount : nat) (env : Env) (w : World State),
    Forall (logs_a_file_of batch)
           (map fst (console_errors
                       (new_events w (snd (import_loop batch successCount errorCount env w))))).
Proof.
  induction batch as [|file rest IH]; intros successCount errorCount env w.
  - simpl. unfold ret. cbn [snd]. rewrite new_events_refl. apply Forall_nil_2.
  - destruct (import_loop_run (file :: rest) successCount errorCount env w)
      as (evs & Hloop & _).
    simpl. unfold bind at 1. unfold try_catch at 1. unfold bind at 1.
    destruct (importFile_run file env w) as (r & Hrun & Hr). rewrite Hrun.
    set (answer := net env (trace w) (Api.import_request file)) in *.
    assert (∀ msg, logs_a_file_of rest msg → logs_a_file_of (file :: rest) msg) as Hweak.
    { intros msg (f & Hf & ->). exists f. split; [by right|reflexivity]. }
    destruct (succeeded answer).
    + destruct Hr as [j ->]. unfold ret at 1. cbn [fst snd].
      set (w1 := mkWorld (st w) (trace w ++ [EvFetch (Api.import_request file) answer])).
      specialize (IH (S successCount) errorCount env w1).
      destruct (import_loop_run rest (S successCount) errorCount env w1) as (evs1 & Hloop1 & _).
      rewrite Hloop1 in IH |- *. cbn [snd] in IH |- *. rewrite new_events_app in IH.
      subst w1. cbn [st trace]. rewrite <- app_assoc, new_events_app.
      rewrite console_errors_app. simpl. eapply Forall_impl; [exact IH|exact Hweak].
    + destruct Hr as [e ->]. unfold bind at 1. unfold console_error, emit at 1.
      unfold ret at 1. cbn [fst snd st trace].
      set (msg := "Failed to import " +:+ DriveFile.name file +:+ ":").
      set (w1 := mkWorld (st w) ((trace w ++ [EvFetch (Api.import_request file) answer])
                                 ++ [EvConsoleError msg e])).
      specialize (IH successCount (S errorCount) env w1).
      destruct (import_loop_run rest successCount (S errorCount) env w1) as (evs1 & Hloop1 & _).
      rewrite Hloop1 in IH |- *. cbn [snd] in IH |- *. rewrite new_events_app in IH.
      subst w1. cbn [st trace]. rewrite <- !app_assoc, new_events_app.
      rewrite !console_errors_app. simpl. apply Forall_cons. split.
      * exists file. split; [by left|reflexivity].
      * eapply Forall_impl; [exact IH|exact Hweak].
Qed.

Lemma handleImport_logs_batch_files (env : Env) (w : World State) :
  Forall (logs_a_file_of (filesToImport (st w)))
         (map fst (console_errors (new_events w (after handleImport env w)))).
Proof.
  unfold after, dispatch, handleImport.
  destruct (filesToImport (st w)) as [|f batch] eqn:Hbatch.
  { cbn [length Nat.eqb]. unfold ret. cbn [snd]. rewrite new_events_refl. apply Forall_nil_2. }
  cbn [length Nat.eqb].
  unfold bind at 1. unfold setImporting at 1, modify at 1.
  unfold bind at 1.
  set (w0 := mkWorld _ (trace w)).
  pose proof (import_loop_logs_batch_files (f :: batch) 0 0 env w0) as Hlogs.
  destruct (import_loop_run (f :: batch) 0 0 env w0) as (evs & Hloop & _).
  rewrite Hloop in Hlogs |- *. cbn [snd] in Hlogs. rewrite new_events_app in Hlogs.
  cbn [fst snd st trace Nat.add].
  unfold bind at 1. unfold setImporting at 1, modify at 1. cbn [st trace].
  destruct (0 <? failures evs)%nat; unfold_monad; cbn [snd st trace];
    rewrite <- !app_assoc; subst w0; cbn [trace]; rewrite new_events_app;
    rewrite console_errors_app; simpl; rewrite app_nil_r; exact Hlogs.
Qed.

(** C5.  The batch is the part of the page on display whose ids are in the
    selection.  An id that is in the selection but belongs to no file of the
    page on display (ticked on another page; "next" and "previous" keep the
    selection) gets no import request and is counted neither as a success
    nor as a failure: the two counters of the loop add up to the size of the
    batch, one error is logged per failed request of the batch, each naming a
    file of the batch, and the alert, if any, reports exactly those two
    counters. *)
Theorem C5_import_batch_is_selection_on_displayed_page (env : Env) (w : World State) :
  let batch := filesToImport (st w) in
  let evs := new_events w (after handleImport env w) in
  (∀ f, f ∈ batch ↔ f ∈ files (st w) ∧ DriveFile.id f ∈ selectedFiles (st w))
  ∧ fetches evs = map Api.import_request batch
  ∧ (successes evs + failures evs)%nat = length batch
  ∧ (∀ x f, x ∈ selectedFiles (st w) →
            (∀ g, g ∈ files (st w) → DriveFile.id g ≠ x) →
            DriveFile.id f = x → Api.import_request f ∉ fetches evs)
  ∧ (∀ env0 w0,
       selectedFiles (st (after handleNextPage env0 w0)) = selectedFiles (st w0)
       ∧ selectedFiles (st (after handlePrevPage env0 w0)) = selectedFiles (st w0))
  ∧ (∀ w0 : World State,
       ∃ successCount errorCount,
         fst (import_loop batch 0 0 env w0) = Ok (successCount, errorCount)
         ∧ (successCount + errorCount)%nat = length batch)
  ∧ length (console_errors evs) = failures evs
  ∧ Forall (logs_a_file_of batch) (map fst (console_errors evs))
  ∧ alerts evs = (if (0 <? failures evs)%nat
                  then [summary (successes evs) (failures evs)]
                  else []).
Proof.
  cbv zeta.
  assert (fetches (new_events w (after handleImport env w))
          = map Api.import_request (filesToImport (st w))
          ∧ (successes (new_events w (after handleImport env w))
             + failures (new_events w (after handleImport env w)))%nat
            = length (filesToImport (st w))
          ∧ length (console_errors (new_events w (after handleImport env w)))
            = failures (new_events w (after handleImport env w))
          ∧ alerts (new_events w (after handleImport env w))
            = (if (0 <? failures (new_events w (after handleImport env w)))%nat
               then [summary (successes (new_events w (after handleImport env w)))
                             (failures (new_events w (after handleImport env w)))]
               else [])) as (Hf & Hcount & Hce & Ha).
  { unfold after. destruct (filesToImport (st w)) as [|f0 batch] eqn:Hbatch.
    - rewrite (handleImport_nothing env w Hbatch). cbn [snd].
      rewrite new_events_refl. repeat split; reflexivity.
    - assert (filesToImport (st w) ≠ []) as Hne by (rewrite Hbatch; discriminate).
      destruct (handleImport_run env w Hne) as (s' & evs & Hrun & Hf & Hcount & Hce & Ha & _).
      rewrite Hrun. cbn [snd]. rewrite new_events_app, <- Hbatch.
      repeat split; assumption. }
  split; [intros f; apply elem_of_filesToImport|].
  split; [exact Hf|]. split; [exact Hcount|].
  split.
  { intros x f _ Hpage Hid Hin. rewrite Hf in Hin.
    apply list_elem_of_fmap in Hin as (g & Heq & Hg).
    apply elem_of_filesToImport in Hg as [Hg _].
    apply (Hpage g Hg). rewrite <- Hid. symmetry. by apply import_request_id. }
  split.
  { intros env0 w0. split.
    - apply handleNextPage_keeps_selection.
    - apply handlePrevPage_keeps_selection. }
  split; [|split; [exact Hce|split; [apply handleImport_logs_batch_files|exact Ha]]].
  intros w0.
  destruct (import_loop_run (filesToImport (st w)) 0 0 env w0)
    as (evs & Hloop & _ & Hsum & _).
  rewrite Hloop. cbn [fst]. eexists _, _. split; [reflexivity|].
  simpl. exact Hsum.
Qed.

(** [f1], ticked on the first page, is still selected on the second page but
    only [f4] is imported. *)
Example selection_of_other_page_is_left_out :
  let w := Scenario.selected_across_pages in
  let evs := new_events w (after handleImport Scenario.env w) in
  bool_decide ("f1" ∈ selectedFiles (st w)) = true
  ∧ size (selectedFiles (st w)) = 2%nat
  ∧ fetches evs = [Api.import_request Scenario.photo]
  ∧ alerts evs = [].
Proof. vm_compute. auto. Qed.

End ImportClaims.

Section RenderClaims.
Import DriveFilePicker.

Lemma prefix_app (p s : string) :
  String.prefix p s = true ↔ ∃ suffix, s = p +:+ suffix.
Proof.
  revert s. induction p as [|c p IH]; intros s.
  - split; [intros _; by exists s | intros _; by destruct s].
  - destruct s as [|c' s]; simpl; [split; [discriminate | intros [? [=]]]|].
    destruct (ascii_dec c c') as [<-|Hne].
    + rewrite IH. split; intros [suffix H]; exists suffix.
      * rewrite H. reflexivity.
      * change (String c s = String c (p +:+ suffix)) in H. congruence.
    + split; [discriminate|]. intros [suffix H].
      change (String c' s = String c (p +:+ suffix)) in H. congruence.
Qed.

Lemma append_head (c : ascii) (s t : string) : String c s +:+ t = String c (s +:+ t).
Proof. reflexivity. Qed.

Lemma string_of_Z_head (k : Z) :
  ∃ c rest, Js.string_of_Z k = String c rest ∧ c ≠ "G"%char.
Proof.
  unfold Js.string_of_Z, NilZero.string_of_int.
  destruct (Z.to_int k) as [d|d].
  - destruct d; simpl; eexists _, _; (split; [reflexivity | discriminate]).
  - simpl. eexists _, _. split; [reflexivity | discriminate].
Qed.

(** No formatted size reads "Google Doc". *)
Lemma formatFileSize_not_Google_Doc (bytes : option Z) :
  Utils.formatFileSize bytes ≠ "Google Doc".
Proof.
  unfold Utils.formatFileSize.
  destruct bytes as [b|]; [|discriminate].
  destruct (b =? 0); [discriminate|].
  destruct (Utils.scale _ b 1 0) as [den unitIndex].
  unfold Utils.toFixed1, Utils.toFixed1_nonneg.
  destruct (b <? 0).
  - discriminate.
  - destruct (string_of_Z_head ((20 * b + den) / (2 * den) / 10)) as (c & rest & -> & Hc).
    rewrite !append_head. intros [= H _]. by apply Hc.
Qed.

(** C9.  Whenever the picker renders a list, its rows are the files of the
    page whose MIME type is not the folder type; a row of a file whose MIME
    type starts with the Google-apps prefix reads "Google Doc", any other row
    reads the formatted size, which is never that text. *)
Theorem C9_folders_hidden_google_docs_labelled (s : State) (rows : list Row) :
  render_file_list s = Rows rows →
  ∃ shown : list DriveFile.t,
    rows = map (render_row s) shown
    ∧ (∀ f, f ∈ shown ↔
            f ∈ files s ∧ DriveFile.mimeType f ≠ "application/vnd.google-apps.folder")
    ∧ (∀ f suffix,
         DriveFile.mimeType f = "application/vnd.google-apps." +:+ suffix →
         row_detail (render_row s f) = "Google Doc")
    ∧ (∀ f,
         (∀ suffix, DriveFile.mimeType f ≠ "application/vnd.google-apps." +:+ suffix) →
         row_detail (render_row s f) = Utils.formatFileSize (size_in_bytes f)
         ∧ row_detail (render_row s f) ≠ "Google Doc").
Proof.
  unfold render_file_list. intros Hrender.
  destruct (loading s); [discriminate|].
  destruct (length (files s) =? 0)%nat; [discriminate|].
  injection Hrender as <-.
  exists (List.filter (fun f => negb (isFolder (DriveFile.mimeType f))) (files s)).
  split; [reflexivity|]. split; [|split].
  - intros f. rewrite !list_elem_of_In, filter_In. unfold isFolder.
    rewrite negb_true_iff, String.eqb_neq. reflexivity.
  - intros f suffix Hmime. unfold render_row, isGoogleDoc. cbn [row_detail].
    assert (String.prefix "application/vnd.google-apps." (DriveFile.mimeType f) = true) as ->
      by (apply prefix_app; eauto).
    reflexivity.
  - intros f Hmime. unfold render_row, isGoogleDoc. cbn [row_detail].
    destruct (String.prefix _ (DriveFile.mimeType f)) eqn:Hp.
    + apply prefix_app in Hp as [suffix Hp]. by destruct (Hmime suffix).
    + split; [reflexivity | apply formatFileSize_not_Google_Doc].
Qed.

Lemma C9_folders_hidden_google_docs_labelled_witness :
  render_file_list (st Scenario.picker_opened) = Rows Scenario.first_page_rows
  ∧ ∃ shown : list DriveFile.t,
      Scenario.first_page_rows = map (render_row (st Scenario.picker_opened)) shown
      ∧ (∀ f, f ∈ shown ↔
              f ∈ files (st Scenario.picker_opened)
              ∧ DriveFile.mimeType f ≠ "application/vnd.google-apps.folder")
      ∧ (∀ f suffix,
           DriveFile.mimeType f = "application/vnd.google-apps." +:+ suffix →
           row_detail (render_row (st Scenario.picker_opened) f) = "Google Doc")
      ∧ (∀ f,
           (∀ suffix, DriveFile.mimeType f ≠ "application/vnd.google-apps." +:+ suffix) →
           row_detail (render_row (st Scenario.picker_opened) f)
           = Utils.formatFileSize (size_in_bytes f)
           ∧ row_detail (render_row (st Scenario.picker_opened) f) ≠ "Google Doc").
Proof.
  split; [vm_compute; reflexivity|].
  apply (C9_folders_hidden_google_docs_labelled (st Scenario.picker_opened)
           Scenario.first_page_rows).
  vm_compute. reflexivity.
Defined.

End RenderClaims.

Section ErrorClaims.
Import ApiFacts.

Lemma handleDelete_declined (env : Env) (tr : list Event) (file : DataroomFile.t) :
  confirm_answer env tr (FileCard.delete_question file) = false →
  dispatch (FileCard.handleDelete file) env (mkWorld tt tr)
  = (Ok tt, mkWorld tt (tr ++ [EvConfirm (FileCard.delete_question file)])).
Proof.
  intros Hno. unfold dispatch, FileCard.handleDelete. unfold bind at 1.
  unfold confirm at 1. cbn [st trace]. rewrite Hno. reflexivity.
Qed.

Lemma App_fetchFiles_caught (s : App.State) :
  caught (App.fetchFiles_call s) (App.fetchFiles s)
    (fun e evs => console_errors evs = [("Failed to fetch files:", e)]).
Proof.
  intros env w.
  destruct (AppFacts.root_fetchFiles_run s env w) as (s' & tail & Hrun & _ & _ & Htail & Hfail).
  rewrite Hrun. cbn [fst snd]. rewrite new_events_app.
  split; [discriminate|]. split.
  - destruct Htail as [->|[e ->]]; reflexivity.
  - intros e He. destruct (Hfail e He) as [-> _]. reflexivity.
Qed.

Lemma App_handleLogin_caught (s : App.State) :
  caught Api.getAuthUrl (App.handleLogin s)
    (fun _ evs => alerts evs = ["Failed to initiate login. Please try again."]).
Proof.
  intros env w.
  destruct (AppFacts.handleLogin_run s env w) as (evs & Hrun & Hu & Hfail).
  rewrite Hrun. cbn [fst snd]. rewrite new_events_app.
  split; [discriminate|]. split; [exact Hu|exact Hfail].
Qed.

Lemma App_checkAuth_caught (s : App.State) :
  caught Api.getAuthStatus (App.checkAuth s)
    (fun _ evs => console_errors evs = [] ∧ alerts evs = []).
Proof.
  intros env w.
  destruct (AppFacts.checkAuth_run s env w) as (s' & evs & Hrun & Hu & Ha & Hfail).
  rewrite Hrun. cbn [fst snd]. rewrite new_events_app.
  split; [discriminate|]. split; [exact Hu|].
  intros e He. destruct (Hfail e He) as (-> & _ & _). split; reflexivity.
Qed.

Lemma Picker_fetchFiles_caught (pageToken query : option string) :
  caught (Api.listDriveFiles pageToken query) (DriveFilePicker.fetchFiles pageToken query)
    (fun e evs => console_errors evs = [("Failed to fetch drive files:", e)]).
Proof.
  intros env w.
  split; [intros e'; apply PickerFacts.fetchFiles_never_rejects|].
  split.
  - destruct (PickerFacts.fetchFiles_run pageToken query env w)
      as (r & s' & tail & Hrun & _ & Htail & _).
    rewrite Hrun. cbn [snd]. rewrite new_events_app.
    destruct Htail as [->|[e ->]]; reflexivity.
  - intros e He.
    destruct (PickerFacts.fetchFiles_logs_failure pageToken query env w e He) as [s' Hrun].
    rewrite Hrun. cbn [snd]. rewrite new_events_app. reflexivity.
Qed.

(** Whatever a call throws is caught by the handler that makes it. *)
Lemma failures_caught_when_the_call_throws :
  (∀ s, caught (App.fetchFiles_call s) (App.fetchFiles s)
          (fun e evs => console_errors evs = [("Failed to fetch files:", e)]))
  ∧ (∀ s, caught Api.getAuthUrl (App.handleLogin s)
            (fun _ evs => alerts evs = ["Failed to initiate login. Please try again."]))
  ∧ (∀ pageToken query,
       caught (Api.listDriveFiles pageToken query)
         (DriveFilePicker.fetchFiles pageToken query)
         (fun e evs => console_errors evs = [("Failed to fetch drive files:", e)]))
  ∧ (∀ env (w : World DriveFilePicker.State),
       let evs := new_events w (after DriveFilePicker.handleImport env w) in
       fst (dispatch DriveFilePicker.handleImport env w) = Ok tt
       ∧ unhandled_rejections evs = []
       ∧ length (console_errors evs) = failures evs
       ∧ ((0 < failures evs)%nat →
          alerts evs = [DriveFilePicker.summary (successes evs) (failures evs)]))
  ∧ (∀ env tr file,
       let w := mkWorld tt tr in
       let evs := new_events w (after (FileCard.handleDelete file) env w) in
       fst (dispatch (FileCard.handleDelete file) env w) = Ok tt
       ∧ unhandled_rejections evs = []
       ∧ (confirm_answer env tr (FileCard.delete_question file) = true →
          ∀ e, fst (Api.deleteFile (DataroomFile.id file) env
                      (mkWorld tt (tr ++ [EvConfirm (FileCard.delete_question file)])))
               = Throw e →
               alerts evs = ["Failed to delete file. Please try again."]))
  ∧ (∀ s, caught Api.getAuthStatus (App.checkAuth s)
            (fun _ evs => console_errors evs = [] ∧ alerts evs = []))
  ∧ (∀ s env (w : World App.State) e,
       fst (Api.getAuthStatus env w) = Throw e →
       App.screen (st (snd (App.checkAuth s env w))) = App.LoginScreen).
Proof.
  split; [exact App_fetchFiles_caught|].
  split; [exact App_handleLogin_caught|].
  split; [exact Picker_fetchFiles_caught|].
  split.
  { intros env w. cbv zeta. unfold after.
    destruct (DriveFilePicker.filesToImport (st w)) as [|f batch] eqn:Hbatch.
    - rewrite (PickerImport.handleImport_nothing env w Hbatch). cbn [fst snd].
      rewrite new_events_refl. repeat split; try reflexivity.
      unfold failures. simpl. lia.
    - assert (DriveFilePicker.filesToImport (st w) ≠ []) as Hne
        by (rewrite Hbatch; discriminate).
      destruct (PickerImport.handleImport_run env w Hne)
        as (s' & evs & Hrun & _ & _ & Hce & Ha & _ & Hu & _).
      rewrite Hrun. cbn [fst snd]. rewrite new_events_app.
      split; [reflexivity|]. split; [exact Hu|]. split; [exact Hce|].
      intros Hpos. rewrite Ha. apply Nat.ltb_lt in Hpos. by rewrite Hpos. }
  split.
  { intros env tr file. cbv zeta. unfold after.
    destruct (confirm_answer env tr (FileCard.delete_question file)) eqn:Hc.
    - rewrite (handleDelete_confirmed env tr file Hc). cbn [fst snd].
      rewrite new_events_app.
      split; [reflexivity|].
      rewrite (one_call_result _ _ _ env _ (deleteFile_run (DataroomFile.id file))).
      cbn [trace].
      destruct (net env _ _) as [e0|res]; unfold checked.
      + split; [reflexivity|]. intros _ e _. reflexivity.
      + destruct (ok res).
        * split; [reflexivity|]. intros _ e [=].
        * split; [reflexivity|]. intros _ e _. reflexivity.
    - rewrite (handleDelete_declined env tr file Hc). cbn [fst snd].
      rewrite new_events_app. split; [reflexivity|]. split; [reflexivity|discriminate]. }
  split; [exact App_checkAuth_caught|].
  intros s env w e He.
  destruct (AppFacts.checkAuth_run s env w) as (s' & evs & Hrun & _ & _ & Hfail).
  rewrite Hrun. cbn [snd st]. destruct (Hfail e He) as (_ & Hauth & _).
  unfold App.screen. rewrite Hauth. reflexivity.
Qed.

(** A handler that catches whatever its call throws handles every answer on
    which the call throws. *)
Lemma caught_handles_failure {σ A B} (call : M σ A) (handler : M σ B) (req : Request)
    (failed : FetchOutcome -> bool) (outcome : Exn -> list Event -> Prop) :
  caught call handler outcome →
  (∀ env (w : World σ), failed (net env (trace w) req) = true →
                        ∃ e, fst (call env w) = Throw e) →
  handles_failure call handler req failed outcome.
Proof.
  intros Hcaught Hthrows env w.
  destruct (Hcaught env w) as (Hno & Hu & Hout).
  split; [exact Hno|]. split; [exact Hu|].
  intros Hfailed. destruct (Hthrows env w Hfailed) as [e He].
  exists e. split; [exact He|]. by apply Hout.
Qed.

Lemma unchecked_json_throws (answer : FetchOutcome) :
  no_json answer = true → ∃ e, unchecked_json answer = Throw e.
Proof.
  destruct answer as [e|res]; simpl; [eauto|].
  unfold parsed. destruct (body res); [discriminate|eauto].
Qed.

(** C3, as the code has it.  A failure is: for a file fetch, a login and the
    authentication check, a call that is rejected or answered with a body
    that is not JSON; for a Drive listing and an import, a call that is
    rejected, answered with a status that is not 2xx, or with a body that is
    not JSON; for a delete, a call that is rejected or answered with a status
    that is not 2xx.  On each such failure the call throws, and what it
    throws is caught where the call is made: a file fetch and a Drive listing
    log it with [console.error]; a login and a delete answer it with an
    alert; every failed import of a batch is logged, and the batch ends with
    an alert when at least one failed.  None of these handlers rejects or
    leaves a rejected promise behind.  A failed authentication check is
    caught as well, but it is neither logged nor alerted: the component falls
    back to the unauthenticated state. *)
Theorem C3_failures_caught_at_call_site :
  (∀ s, handles_failure (App.fetchFiles_call s) (App.fetchFiles s)
          (App.fetchFiles_request s) no_json
          (fun e evs => console_errors evs = [("Failed to fetch files:", e)]))
  ∧ (∀ s, handles_failure Api.getAuthUrl (App.handleLogin s) Api.auth_login_request no_json
            (fun _ evs => alerts evs = ["Failed to initiate login. Please try again."]))
  ∧ (∀ pageToken query,
       handles_failure (Api.listDriveFiles pageToken query)
         (DriveFilePicker.fetchFiles pageToken query)
         (Api.drive_files_request pageToken query)
         (fun answer => negb (succeeded answer))
         (fun e evs => console_errors evs = [("Failed to fetch drive files:", e)]))
  ∧ (∀ env (w : World DriveFilePicker.State),
       let evs := new_events w (after DriveFilePicker.handleImport env w) in
       fst (dispatch DriveFilePicker.handleImport env w) = Ok tt
       ∧ unhandled_rejections evs = []
       ∧ failures evs
         = length (List.filter (fun answer => negb (succeeded answer))
                               (map snd (fetch_log evs)))
       ∧ length (console_errors evs) = failures evs
       ∧ ((0 < failures evs)%nat →
          alerts evs = [DriveFilePicker.summary (successes evs) (failures evs)]))
  ∧ (∀ env tr file,
       let w := mkWorld tt tr in
       let evs := new_events w (after (FileCard.handleDelete file) env w) in
       let answer := net env (tr ++ [EvConfirm (FileCard.delete_question file)])
                         (Api.delete_request (DataroomFile.id file)) in
       fst (dispatch (FileCard.handleDelete file) env w) = Ok tt
       ∧ unhandled_rejections evs = []
       ∧ (confirm_answer env tr (FileCard.delete_question file) = true →
          refused answer = true →
          (∃ e, fst (Api.deleteFile (DataroomFile.id file) env
                       (mkWorld tt (tr ++ [EvConfirm (FileCard.delete_question file)])))
                = Throw e)
          ∧ alerts evs = ["Failed to delete file. Please try again."]))
  ∧ (∀ s, handles_failure Api.getAuthStatus (App.checkAuth s) Api.auth_status_request no_json
            (fun _ evs => console_errors evs = [] ∧ alerts evs = []))
  ∧ (∀ s env (w : World App.State),
       no_json (net env (trace w) Api.auth_status_request) = true →
       App.screen (st (snd (App.checkAuth s env w))) = App.LoginScreen).
Proof.
  destruct failures_caught_when_the_call_throws
    as (Hfetch & Hlogin & Hlisting & Himport & Hdelete & Hauth & Hscreen).
  split.
  { intros s. apply caught_handles_failure; [apply Hfetch|].
    intros env w Hfailed.
    rewrite (one_call_result _ _ _ env w (AppFacts.fetchFiles_call_run s)).
    by apply unchecked_json_throws. }
  split.
  { intros s. apply caught_handles_failure; [apply Hlogin|].
    intros env w Hfailed. rewrite (one_call_result _ _ _ env w getAuthUrl_run).
    by apply unchecked_json_throws. }
  split.
  { intros pageToken query. apply caught_handles_failure; [apply Hlisting|].
    intros env w Hfailed.
    rewrite (one_call_result _ _ _ env w (listDriveFiles_run pageToken query)).
    destruct (net env (trace w) _) as [e|res]; unfold checked; [eauto|].
    simpl in Hfailed. destruct (ok res); [|eauto].
    unfold parsed. destruct (body res); [discriminate Hfailed|eauto]. }
  split.
  { intros env w. cbv zeta. destruct (Himport env w) as (Hok & Hu & Hce & Ha).
    split; [exact Hok|]. split; [exact Hu|]. split; [reflexivity|].
    split; [exact Hce|exact Ha]. }
  split.
  { intros env tr file. cbv zeta. destruct (Hdelete env tr file) as (Hok & Hu & Ha).
    split; [exact Hok|]. split; [exact Hu|].
    intros Hyes Hrefused.
    assert (∃ e, fst (Api.deleteFile (DataroomFile.id file) env
                        (mkWorld tt (tr ++ [EvConfirm (FileCard.delete_question file)])))
                 = Throw e) as [e He].
    { rewrite (one_call_result _ _ _ env _ (deleteFile_run (DataroomFile.id file))).
      cbn [trace]. destruct (net env _ _) as [e|res]; unfold checked; [eauto|].
      simpl in Hrefused. destruct (ok res); [discriminate Hrefused|eauto]. }
    split; [eauto|]. exact (Ha Hyes e He). }
  split.
  { intros s. apply caught_handles_failure; [apply Hauth|].
    intros env w Hfailed. rewrite (one_call_result _ _ _ env w getAuthStatus_run).
    by apply unchecked_json_throws. }
  intros s env w Hfailed.
  assert (∃ e, fst (Api.getAuthStatus env w) = Throw e) as [e He].
  { rewrite (one_call_result _ _ _ env w getAuthStatus_run).
    by apply unchecked_json_throws. }
  exact (Hscreen s env w e He).
Qed.

(** C3 as stated fails at the authentication check, where the failure is
    handled in silence, and at [handleLogout], which has no [try]: with the
    network down the check ends on the login screen with an empty console and
    no dialog, and the rejection of the logout call leaves the handler. *)
Lemma C3_counterexample_silent_auth_check_and_uncaught_logout :
  fst (Api.getAuthStatus Scenario.offline (mkWorld App.initial []))
  = Throw (TypeError "Failed to fetch")
  ∧ new_events (mkWorld App.initial []) (after App.checkAuth Scenario.offline (mkWorld App.initial []))
    = [EvFetch Api.auth_status_request (Rejects (TypeError "Failed to fetch"))]
  ∧ ¬ caught_and_surfaced Api.getAuthStatus (dispatch App.checkAuth)
  ∧ fst (dispatch App.handleLogout Scenario.offline Scenario.signed_in)
    = Throw (TypeError "Failed to fetch")
  ∧ ¬ caught_and_surfaced Api.logout (dispatch App.handleLogout).
Proof.
  split; [reflexivity|]. split; [reflexivity|]. split; [|split; [reflexivity|]].
  - intros H.
    destruct (H Scenario.offline (mkWorld App.initial []) _ eq_refl) as (_ & _ & [Hs|Hs]);
      by apply Hs.
  - intros H.
    destruct (H Scenario.offline Scenario.signed_in _ eq_refl) as (Hn & _).
    by apply (Hn (TypeError "Failed to fetch")).
Qed.

End ErrorClaims.

(** * Further properties *)

(** ** lib/utils.ts *)

Section UtilsProperties.
Import Utils.

(** X1.  The unit of a formatted size: bytes below 1024, then KB, MB and, for
    everything from 1024^3 upwards, GB; the number shown is the size divided
    by the matching power of 1024. *)
Theorem formatFileSize_unit_thresholds (b : Z) :
  0 < b →
  formatFileSize (Some b)
  = if (b <? 1024) then toFixed1 b 1 +:+ " B"
    else if (b <? 1024 ^ 2) then toFixed1 b 1024 +:+ " KB"
    else if (b <? 1024 ^ 3) then toFixed1 b (1024 ^ 2) +:+ " MB"
    else toFixed1 b (1024 ^ 3) +:+ " GB".
Proof.
  intros Hpos. unfold formatFileSize.
  assert ((b =? 0) = false) as -> by (apply Z.eqb_neq; lia).
  change (length units - 1)%nat with 3%nat.
  unfold scale. change (length units - 1)%nat with 3%nat.
  change (0 <? 3)%nat with true. change (1 <? 3)%nat with true.
  change (2 <? 3)%nat with true. rewrite !andb_true_r.
  change (1024 ^ 2) with 1048576. change (1024 ^ 3) with 1073741824.
  change (1024 * 1) with 1024. change (1024 * 1024) with 1048576.
  change (1024 * 1048576) with 1073741824.
  destruct (Z.ltb_spec b 1024) as [H1|H1].
  { assert ((1024 <=? b) = false) as -> by (apply Z.leb_gt; lia). reflexivity. }
  assert ((1024 <=? b) = true) as -> by (apply Z.leb_le; lia).
  destruct (Z.ltb_spec b 1048576) as [H2|H2].
  { assert ((1048576 <=? b) = false) as -> by (apply Z.leb_gt; lia). reflexivity. }
  assert ((1048576 <=? b) = true) as -> by (apply Z.leb_le; lia).
  destruct (Z.ltb_spec b 1073741824) as [H3|H3].
  { assert ((1073741824 <=? b) = false) as -> by (apply Z.leb_gt; lia). reflexivity. }
  assert ((1073741824 <=? b) = true) as -> by (apply Z.leb_le; lia).
  reflexivity.
Qed.

Lemma formatFileSize_unit_thresholds_witness :
  0 < 5368709120
  ∧ formatFileSize (Some 5368709120)
    = if (5368709120 <? 1024) then toFixed1 5368709120 1 +:+ " B"
      else if (5368709120 <? 1024 ^ 2) then toFixed1 5368709120 1024 +:+ " KB"
      else if (5368709120 <? 1024 ^ 3) then toFixed1 5368709120 (1024 ^ 2) +:+ " MB"
      else toFixed1 5368709120 (1024 ^ 3) +:+ " GB".
Proof.
  split; [lia|]. apply (formatFileSize_unit_thresholds 5368709120). lia.
Defined.

(** Rounding to one decimal: the nearest tenth, the larger one on a tie. *)
Lemma toFixed1_rounds_to_nearest_tenth (num den : Z) :
  0 ≤ num → 0 < den →
  ∃ n : Z,
    toFixed1 num den = Js.string_of_Z (n / 10) +:+ "." +:+ Js.string_of_Z (n `mod` 10)
    ∧ 0 ≤ n
    ∧ 0 ≤ n `mod` 10 ≤ 9
    ∧ - den ≤ 2 * (10 * num - n * den) < den.
Proof.
  intros Hnum Hden. exists ((20 * num + den) / (2 * den)).
  unfold toFixed1, toFixed1_nonneg.
  assert ((num <? 0) = false) as -> by (apply Z.ltb_ge; lia).
  split; [reflexivity|].
  pose proof (Z.div_mod (20 * num + den) (2 * den) ltac:(lia)) as Hdm.
  pose proof (Z.mod_pos_bound (20 * num + den) (2 * den) ltac:(lia)) as Hmod.
  pose proof (Z.mod_pos_bound ((20 * num + den) / (2 * den)) 10 ltac:(lia)) as Hm10.
  split; [apply Z.div_pos; lia|]. split; [lia|].
  set (n := (20 * num + den) / (2 * den)) in *.
  set (r := (20 * num + den) `mod` (2 * den)) in *.
  nia.
Qed.

(** The loop stops at the first of the four units in which the size is below
    1024, or at the last one. *)
Lemma scale_stops (b : Z) :
  0 < b →
  ∃ k : nat, (k ≤ 3)%nat ∧ scale 3 b 1 0 = (1024 ^ Z.of_nat k, k).
Proof.
  intros Hpos. unfold scale. change (length units - 1)%nat with 3%nat.
  change (0 <? 3)%nat with true. change (1 <? 3)%nat with true.
  change (2 <? 3)%nat with true. rewrite !andb_true_r.
  destruct (1024 * 1 <=? b); [|exists 0%nat; split; [lia|reflexivity]].
  destruct (1024 * (1024 * 1) <=? b); [|exists 1%nat; split; [lia|reflexivity]].
  destruct (1024 * (1024 * (1024 * 1)) <=? b);
    [exists 3%nat | exists 2%nat]; (split; [lia|reflexivity]).
Qed.

(** X2.  For a size a file can have (positive, below 2^53) [formatFileSize]
    prints a number with one decimal and one of the four units, and that
    number is the size divided by the unit's power of 1024, rounded to the
    nearest tenth: what is shown is never off by more than half a tenth of
    the unit. *)
Theorem formatFileSize_shows_nearest_tenth (b : Z) :
  0 < b < 2 ^ 53 →
  ∃ (n : Z) (k : nat),
    (k ≤ 3)%nat
    ∧ formatFileSize (Some b)
      = (Js.string_of_Z (n / 10) +:+ "." +:+ Js.string_of_Z (n `mod` 10))
        +:+ " " +:+ nth k units Js.empty
    ∧ 0 ≤ n
    ∧ 0 ≤ n `mod` 10 ≤ 9
    ∧ - 1024 ^ Z.of_nat k ≤ 2 * (10 * b - n * 1024 ^ Z.of_nat k) < 1024 ^ Z.of_nat k.
Proof.
  intros [Hpos _]. unfold formatFileSize.
  assert ((b =? 0) = false) as -> by (apply Z.eqb_neq; lia).
  change (length units - 1)%nat with 3%nat.
  destruct (scale_stops b Hpos) as (k & Hk & ->).
  assert (0 < 1024 ^ Z.of_nat k) as Hden by (apply Z.pow_pos_nonneg; lia).
  destruct (toFixed1_rounds_to_nearest_tenth b (1024 ^ Z.of_nat k) ltac:(lia) Hden)
    as (n & -> & Hn & Hdigit & Hround).
  exists n, k. repeat split; try assumption; lia.
Qed.

Lemma formatFileSize_shows_nearest_tenth_witness :
  0 < 1536 < 2 ^ 53
  ∧ ∃ (n : Z) (k : nat),
      (k ≤ 3)%nat
      ∧ formatFileSize (Some 1536)
        = (Js.string_of_Z (n / 10) +:+ "." +:+ Js.string_of_Z (n `mod` 10))
          +:+ " " +:+ nth k units Js.empty
      ∧ 0 ≤ n
      ∧ 0 ≤ n `mod` 10 ≤ 9
      ∧ - 1024 ^ Z.of_nat k ≤ 2 * (10 * 1536 - n * 1024 ^ Z.of_nat k) < 1024 ^ Z.of_nat k.
Proof.
  split; [lia|]. apply (formatFileSize_shows_nearest_tenth 1536). lia.
Defined.

Lemma string_of_Z_first_char (k : Z) :
  ∃ c rest, Js.string_of_Z k = String c rest
            ∧ (c = "-"%char ∨ (48 ≤ nat_of_ascii c ≤ 57)%nat).
Proof.
  unfold Js.string_of_Z, NilZero.string_of_int.
  destruct (Z.to_int k) as [d|d].
  - destruct d; simpl; eexists _, _; (split; [reflexivity | right; vm_compute; lia]).
  - simpl. eexists _, _. split; [reflexivity | by left].
Qed.

(** X3.  "Unknown size" is shown exactly for a missing size and for a size
    of zero. *)
Theorem formatFileSize_unknown_iff (bytes : option Z) :
  formatFileSize bytes = "Unknown size" ↔ bytes = None ∨ bytes = Some 0.
Proof.
  split.
  - unfold formatFileSize. destruct bytes as [b|]; [|by left].
    destruct (Z.eqb_spec b 0) as [->|Hb]; [by right|].
    destruct (scale _ b 1 0) as [den unitIndex].
    unfold toFixed1, toFixed1_nonneg.
    destruct (b <? 0).
    + discriminate.
    + destruct (string_of_Z_first_char ((20 * b + den) / (2 * den) / 10))
        as (c & rest & -> & Hc).
      rewrite !append_head. intros [= -> _].
      destruct Hc as [Hc|Hc]; [discriminate|vm_compute in Hc; lia].
  - intros [-> | ->]; reflexivity.
Qed.

Lemma includes_of_app (pre sub post : string) :
  Js.includes (pre +:+ sub +:+ post) sub = true.
Proof.
  induction pre as [|c pre IH].
  - change (EmptyString +:+ sub +:+ post) with (sub +:+ post).
    assert (String.prefix sub (sub +:+ post) = true) as Hp by (apply prefix_app; eauto).
    destruct (sub +:+ post); simpl; simpl in Hp; rewrite Hp; reflexivity.
  - rewrite append_head. simpl. rewrite IH. apply orb_true_r.
Qed.

Lemma includes_app (s sub : string) :
  Js.includes s sub = true → ∃ pre post, s = pre +:+ sub +:+ post.
Proof.
  induction s as [|c s IH].
  - destruct sub; [intros _; by exists EmptyString, EmptyString | discriminate].
  - change (Js.includes (String c s) sub)
      with (String.prefix sub (String c s) || Js.includes s sub).
    intros H. apply orb_true_iff in H as [Hp|Hrest].
    + apply (prefix_app sub (String c s)) in Hp as [post ->]. by exists EmptyString, post.
    + destruct (IH Hrest) as (pre & post & ->). by exists (String c pre), post.
Qed.

Lemma string_app_assoc (a b c : string) : (a +:+ b) +:+ c = a +:+ b +:+ c.
Proof.
  induction a as [|x a IH]; [reflexivity|].
  rewrite !append_head. by rewrite IH.
Qed.

(** A text that contains [outer] contains every text [outer] contains. *)
Lemma includes_trans (s outer inner : string) :
  Js.includes s outer = true → Js.includes outer inner = true → Js.includes s inner = true.
Proof.
  intros H1 H2.
  apply includes_app in H1 as (pre1 & post1 & ->).
  apply includes_app in H2 as (pre2 & post2 & ->).
  replace (pre1 +:+ (pre2 +:+ inner +:+ post2) +:+ post1)
    with ((pre1 +:+ pre2) +:+ inner +:+ (post2 +:+ post1)).
  - apply includes_of_app.
  - rewrite !string_app_assoc. reflexivity.
Qed.

(** X4.  A MIME type that mentions [officedocument] (as every Office Open
    XML type does, presentations included) is matched by the document branch
    at the latest: it gets the book, the chart or the memo icon, never the
    projector of the presentation branch. *)
Theorem getFileIcon_officedocument (m : string) :
  Js.includes m "officedocument" = true →
  getFileIcon (Some m)
  = if Js.includes m "pdf" then ClosedBook
    else if Js.includes m "spreadsheet" || Js.includes m "excel" then BarChart
    else Memo.
Proof.
  intros Hoffice.
  assert (Js.includes m "document" = true) as Hdoc.
  { apply (includes_trans m "officedocument" "document" Hoffice). reflexivity. }
  unfold getFileIcon.
  assert (Js.truthy_string m = true) as ->.
  { destruct m; [discriminate Hoffice | reflexivity]. }
  cbn [negb]. rewrite Hdoc. cbn [orb].
  destruct (Js.includes m "pdf"); [reflexivity|].
  destruct (Js.includes m "spreadsheet" || Js.includes m "excel"); reflexivity.
Qed.

Lemma getFileIcon_officedocument_witness :
  Js.includes "application/vnd.openxmlformats-officedocument.presentationml.presentation"
              "officedocument" = true
  ∧ getFileIcon (Some "application/vnd.openxmlformats-officedocument.presentationml.presentation")
    = if Js.includes
           "application/vnd.openxmlformats-officedocument.presentationml.presentation" "pdf"
      then ClosedBook
      else if Js.includes
                "application/vnd.openxmlformats-officedocument.presentationml.presentation"
                "spreadsheet"
              || Js.includes
                   "application/vnd.openxmlformats-officedocument.presentationml.presentation"
                   "excel"
           then BarChart
           else Memo.
Proof.
  split; [reflexivity|].
  apply (getFileIcon_officedocument
           "application/vnd.openxmlformats-officedocument.presentationml.presentation").
  reflexivity.
Defined.

End UtilsProperties.

(** ** lib/api.ts *)

Section ApiProperties.
Import ApiFacts.

Lemma string_of_Z_inj (a b : Z) : Js.string_of_Z a = Js.string_of_Z b → a = b.
Proof.
  unfold Js.string_of_Z. intros Heq.
  apply DecimalZ.to_int_inj.
  assert (∀ n, NilZero.int_of_string (NilZero.string_of_int (Z.to_int n)) = Some (Z.to_int n))
    as Hisi.
  { intros n. apply NilZero.isi; destruct n; simpl; try discriminate;
      intros [= H]; by apply DecimalPos.Unsigned.to_uint_nonnil in H. }
  pose proof (Hisi a) as Ha. rewrite Heq, Hisi in Ha. congruence.
Qed.

(** X5.  Two files have the same view URL, or the same [DELETE] request,
    only when they have the same id: a card never opens or deletes another
    card's file. *)
Theorem file_urls_identify_the_file (a b : Z) :
  (Api.getFileUrl a = Api.getFileUrl b ↔ a = b)
  ∧ (Api.delete_request a = Api.delete_request b ↔ a = b).
Proof.
  assert (∀ x y : Z, "/api/files/" +:+ Js.string_of_Z x = "/api/files/" +:+ Js.string_of_Z y
                     → x = y) as Hinj.
  { intros x y H. apply string_of_Z_inj.
    repeat (rewrite !append_head in H; injection H as H). exact H. }
  split; split; try (intros ->; reflexivity).
  - intros H. apply Hinj. exact H.
  - intros [= H]. apply string_of_Z_inj. exact H.
Qed.



End ApiProperties.

(** ** App.tsx *)

Section AppProperties.
Import App ApiFacts AppFacts.

Lemma checkAuth_with_body (s : State) (env : Env) (w : World State)
    (res : Response) (fields : list (string * JSON)) :
  net env (trace w) Api.auth_status_request = Resolves res →
  body res = Some (JObj fields) →
  ∃ s' tail,
    checkAuth s env w
    = (Ok tt, mkWorld s' (trace w ++ EvFetch Api.auth_status_request (Resolves res) :: tail))
    ∧ fetches tail
      = (if Js.truthy (Js.obj_get "authenticated" fields) then [fetchFiles_request s] else [])
    ∧ authenticated s' = Js.obj_get "authenticated" fields
    ∧ loading s' = false.
Proof.
  intros Hnet Hbody.
  unfold checkAuth, try_catch. unfold bind at 1.
  rewrite (getAuthStatus_run env w), Hnet.
  unfold unchecked_json, parsed. rewrite Hbody.
  unfold bind at 1. unfold lift_result at 1. cbn [Js.get_prop].
  unfold bind at 1. unfold setAuthenticated at 1, modify at 1. cbn [st trace].
  destruct (Js.truthy (Js.obj_get "authenticated" fields)) eqn:Htruthy.
  - set (w1 := mkWorld _ _).
    destruct (root_fetchFiles_run s env w1) as (s' & tail & Hrun & Hload & Hauth & Htail & _).
    unfold no_await. rewrite Hrun. subst w1. cbn [fst snd st trace] in *.
    rewrite <- app_assoc. eexists _, _. split; [reflexivity|].
    split; [|split; [exact Hauth|exact Hload]].
    destruct Htail as [->|[e ->]]; reflexivity.
  - unfold setLoading, modify. cbn [fst snd st trace].
    eexists _, _. split; [reflexivity|]. repeat split; reflexivity.
Qed.

(** X7.  The authentication check reads the [authenticated] member of the
    status body, whatever the HTTP status.  A truthy value is stored and
    followed by exactly one file fetch; a falsy value is stored and followed
    by no further call, and the component then shows the login screen or,
    when the member is [null], the initial spinner for good. *)
Theorem checkAuth_follows_status_body (s : State) (env : Env) (w : World State)
    (res : Response) (fields : list (string * JSON)) :
  net env (trace w) Api.auth_status_request = Resolves res →
  body res = Some (JObj fields) →
  let v := Js.obj_get "authenticated" fields in
  let w' := snd (checkAuth s env w) in
  fst (checkAuth s env w) = Ok tt
  ∧ fetches (new_events w w')
    = Api.auth_status_request :: (if Js.truthy v then [fetchFiles_request s] else [])
  ∧ authenticated (st w') = v
  ∧ loading (st w') = false
  ∧ (Js.truthy v = false →
     screen (st w') = match v with Some JNull => CheckingAuth | _ => LoginScreen end).
Proof.
  intros Hnet Hbody. cbv zeta.
  destruct (checkAuth_with_body s env w res fields Hnet Hbody)
    as (s' & tail & Hrun & Hf & Hauth & Hload).
  rewrite Hrun. cbn [fst snd st]. rewrite new_events_app.
  split; [reflexivity|]. split.
  { change (EvFetch Api.auth_status_request (Resolves res) :: tail)
      with ([EvFetch Api.auth_status_request (Resolves res)] ++ tail).
    rewrite fetches_app, Hf. reflexivity. }
  split; [exact Hauth|]. split; [exact Hload|].
  intros Hfalsy. unfold screen. rewrite Hauth.
  destruct (Js.obj_get "authenticated" fields) as [[]|];
    try reflexivity; try discriminate Hfalsy; by rewrite Hfalsy.
Qed.

Lemma checkAuth_follows_status_body_witness :
  net Scenario.signed_out (trace (mkWorld initial [])) Api.auth_status_request
  = Resolves (mkResponse 200 (Some (JObj [("authenticated", JBool false)])))
  ∧ body (mkResponse 200 (Some (JObj [("authenticated", JBool false)])))
    = Some (JObj [("authenticated", JBool false)])
  ∧ fst (checkAuth initial Scenario.signed_out (mkWorld initial [])) = Ok tt
  ∧ fetches (new_events (mkWorld initial [])
               (snd (checkAuth initial Scenario.signed_out (mkWorld initial []))))
    = Api.auth_status_request
      :: (if Js.truthy (Js.obj_get "authenticated" [("authenticated", JBool false)])
          then [fetchFiles_request initial] else [])
  ∧ authenticated (st (snd (checkAuth initial Scenario.signed_out (mkWorld initial []))))
    = Js.obj_get "authenticated" [("authenticated", JBool false)]
  ∧ loading (st (snd (checkAuth initial Scenario.signed_out (mkWorld initial [])))) = false
  ∧ (Js.truthy (Js.obj_get "authenticated" [("authenticated", JBool false)]) = false →
     screen (st (snd (checkAuth initial Scenario.signed_out (mkWorld initial []))))
     = match Js.obj_get "authenticated" [("authenticated", JBool false)] with
       | Some JNull => CheckingAuth
       | _ => LoginScreen
       end).
Proof.
  split; [reflexivity|]. split; [reflexivity|].
  apply (checkAuth_follows_status_body initial Scenario.signed_out (mkWorld initial [])
           (mkResponse 200 (Some (JObj [("authenticated", JBool false)])))
           [("authenticated", JBool false)]); reflexivity.
Defined.

(** X8.  A file fetch makes exactly one call, to the search endpoint with the
    query when the search box is not empty and to the list endpoint otherwise;
    whatever the answer, the handler settles without rejecting and the
    loading flag is down again. *)
Theorem fetchFiles_one_call_then_idle (s : State) (env : Env) (w : World State) :
  fst (fetchFiles s env w) = Ok tt
  ∧ fetches (new_events w (snd (fetchFiles s env w)))
    = [if Js.truthy_string (searchQuery s)
       then mkRequest GET "/api/files/search" [("q", searchQuery s)] [] None
       else mkRequest GET "/api/files" [] [] None]
  ∧ loading (st (snd (fetchFiles s env w))) = false
  ∧ authenticated (st (snd (fetchFiles s env w))) = authenticated (st w).
Proof.
  destruct (root_fetchFiles_run s env w) as (s' & tail & Hrun & Hload & Hauth & Htail & _).
  rewrite Hrun. cbn [fst snd st]. rewrite new_events_app.
  split; [reflexivity|]. split; [|split; [exact Hload|exact Hauth]].
  unfold fetchFiles_request.
  destruct (Js.truthy_string (searchQuery s)); destruct Htail as [->|[e ->]]; reflexivity.
Qed.

Lemma fetchFiles_with_body (s : State) (env : Env) (w : World State)
    (res : Response) (fields : list (string * JSON)) :
  net env (trace w) (fetchFiles_request s) = Resolves res →
  body res = Some (JObj fields) →
  fetchFiles s env w
  = (Ok tt,
     mkWorld (mkState (authenticated (st w)) (Js.obj_get "files" fields) false
                      (searchQuery (st w)) (showPicker (st w)))
             (trace w ++ [EvFetch (fetchFiles_request s) (Resolves res)])).
Proof.
  intros Hnet Hbody.
  unfold fetchFiles. unfold bind at 1. unfold setLoading at 1, modify at 1.
  set (w0 := mkWorld _ (trace w)).
  unfold try_finally, try_catch. unfold bind at 1.
  rewrite (fetchFiles_call_run s env w0).
  change (trace w0) with (trace w). rewrite Hnet.
  unfold unchecked_json, parsed. rewrite Hbody.
  unfold lift_result, Js.get_prop, setFiles, setLoading. unfold_monad.
  reflexivity.
Qed.

(** X9.  A file fetch answered with a JSON object stores the [files] member
    of that object as the list, without a look at the HTTP status and without
    logging anything: an object that has no such member, such as an error
    body, replaces the list by [undefined]. *)
Theorem fetchFiles_stores_files_member (s : State) (env : Env) (w : World State)
    (res : Response) (fields : list (string * JSON)) :
  net env (trace w) (fetchFiles_request s) = Resolves res →
  body res = Some (JObj fields) →
  files (st (snd (fetchFiles s env w))) = Js.obj_get "files" fields
  ∧ console_errors (new_events w (snd (fetchFiles s env w))) = []
  ∧ alerts (new_events w (snd (fetchFiles s env w))) = []
  ∧ (Js.obj_get "files" fields = None →
     files (st (snd (fetchFiles s env w))) = undefined).
Proof.
  intros Hnet Hbody. rewrite (fetchFiles_with_body s env w res fields Hnet Hbody).
  cbn [snd st files]. rewrite new_events_app.
  repeat split; try reflexivity. intros ->. reflexivity.
Qed.

Lemma fetchFiles_stores_files_member_witness :
  net Scenario.failing (trace Scenario.signed_in)
      (fetchFiles_request (st Scenario.signed_in))
  = Resolves Scenario.internal_error
  ∧ body Scenario.internal_error = Some (JObj [("error", JStr "Internal Server Error")])
  ∧ files (st (snd (fetchFiles (st Scenario.signed_in) Scenario.failing Scenario.signed_in)))
    = Js.obj_get "files" [("error", JStr "Internal Server Error")]
  ∧ console_errors
      (new_events Scenario.signed_in
         (snd (fetchFiles (st Scenario.signed_in) Scenario.failing Scenario.signed_in))) = []
  ∧ alerts
      (new_events Scenario.signed_in
         (snd (fetchFiles (st Scenario.signed_in) Scenario.failing Scenario.signed_in))) = []
  ∧ (Js.obj_get "files" [("error", JStr "Internal Server Error")] = None →
     files (st (snd (fetchFiles (st Scenario.signed_in) Scenario.failing Scenario.signed_in)))
     = undefined).
Proof.
  split; [reflexivity|]. split; [reflexivity|].
  apply (fetchFiles_stores_files_member (st Scenario.signed_in) Scenario.failing
           Scenario.signed_in Scenario.internal_error
           [("error", JStr "Internal Server Error")]); reflexivity.
Defined.



(** X11.  When the logout call itself is rejected (no response at all), the
    rejection leaves [handleLogout] and the local state is not reset: the
    user stays on the dashboard with the list as it was. *)
Theorem handleLogout_rejection_keeps_session (env : Env) (w : World State) (e : Exn) :
  net env (trace w) Api.logout_request = Rejects e →
  fst (dispatch handleLogout env w) = Throw e
  ∧ st (after handleLogout env w) = st w
  ∧ new_events w (after handleLogout env w) = [EvFetch Api.logout_request (Rejects e)].
Proof.
  intros Hnet. unfold after, dispatch.
  rewrite (handleLogout_rejected (st w) env w e Hnet). cbn [fst snd st].
  rewrite new_events_app. repeat split; reflexivity.
Qed.

Lemma handleLogout_rejection_keeps_session_witness :
  net Scenario.offline (trace Scenario.signed_in) Api.logout_request
  = Rejects (TypeError "Failed to fetch")
  ∧ fst (dispatch handleLogout Scenario.offline Scenario.signed_in)
    = Throw (TypeError "Failed to fetch")
  ∧ st (after handleLogout Scenario.offline Scenario.signed_in) = st Scenario.signed_in
  ∧ new_events Scenario.signed_in (after handleLogout Scenario.offline Scenario.signed_in)
    = [EvFetch Api.logout_request (Rejects (TypeError "Failed to fetch"))].
Proof.
  split; [reflexivity|].
  apply (handleLogout_rejection_keeps_session Scenario.offline Scenario.signed_in).
  reflexivity.
Defined.

End AppProperties.

(** ** components/FileCard.tsx *)

Section FileCardProperties.
Import FileCard.

(** X12.  When the user answers the confirmation with "Cancel", deleting
    stops there: no request is sent, the parent is not called and nothing is
    alerted. *)
Theorem handleDelete_cancelled (env : Env) (tr : list Event) (file : DataroomFile.t) :
  confirm_answer env tr (delete_question file) = false →
  fst (dispatch (handleDelete file) env (mkWorld tt tr)) = Ok tt
  ∧ new_events (mkWorld tt tr) (after (handleDelete file) env (mkWorld tt tr))
    = [EvConfirm (delete_question file)].
Proof.
  intros Hno. unfold after.
  rewrite (handleDelete_declined env tr file Hno). cbn [fst snd].
  rewrite new_events_app. split; reflexivity.
Qed.

Lemma handleDelete_cancelled_witness :
  confirm_answer Scenario.declining [] (delete_question Scenario.stored_report) = false
  ∧ fst (dispatch (handleDelete Scenario.stored_report) Scenario.declining (mkWorld tt []))
    = Ok tt
  ∧ new_events (mkWorld tt [])
      (after (handleDelete Scenario.stored_report) Scenario.declining (mkWorld tt []))
    = [EvConfirm (delete_question Scenario.stored_report)].
Proof.
  split; [reflexivity|].
  apply (handleDelete_cancelled Scenario.declining [] Scenario.stored_report).
  reflexivity.
Defined.

End FileCardProperties.

(** ** components/DriveFilePicker.tsx *)

Set Warnings "-clear-no-such-hyp".

Section PickerProperties.
Import DriveFilePicker PickerFacts PickerNavigation PickerImport.

Lemma fetchFiles_failure_state (pageToken query : option string) (env : Env)
    (w : World State) (e : Exn) :
  fst (Api.listDriveFiles pageToken query env w) = Throw e →
  fetchFiles pageToken query env w
  = (Ok tt,
     mkWorld (mkState (files (st w)) false (searchQuery (st w)) (selectedFiles (st w))
                      (importing (st w)) (nextPageToken (st w)) (prevTokens (st w)))
             (trace w ++ [EvFetch (Api.drive_files_request pageToken query)
                            (net env (trace w) (Api.drive_files_request pageToken query));
                          EvConsoleError listing_failed e])).
Proof.
  rewrite (ApiFacts.one_call_result _ _ _ env w (ApiFacts.listDriveFiles_run _ _)).
  unfold fetchFiles. unfold bind at 1. unfold setLoading at 1, modify at 1.
  set (w0 := mkWorld _ (trace w)).
  unfold try_finally, try_catch. unfold bind at 1.
  rewrite (ApiFacts.listDriveFiles_run pageToken query env w0).
  change (trace w0) with (trace w).
  destruct (net env (trace w) _) as [e0|res]; unfold checked.
  - intros [= ->]. unfold setLoading. unfold_monad. cbn [fst snd st trace].
    rewrite <- app_assoc. reflexivity.
  - destruct (ok res).
    + unfold parsed. destruct (body res) as [j|]; [discriminate|].
      intros [= <-]. unfold setLoading. unfold_monad. cbn [fst snd st trace].
      rewrite <- app_assoc. reflexivity.
    + intros [= <-]. unfold setLoading. unfold_monad. cbn [fst snd st trace].
      rewrite <- app_assoc. reflexivity.
Qed.

(** X13.  A listing whose call fails (network down, status not 2xx, body not
    JSON) changes nothing but the loading flag: the page on display and the
    token of its next page stay as they were, and the failure is logged
    once. *)
Theorem failed_listing_keeps_page (pageToken query : option string) (env : Env)
    (w : World State) (e : Exn) :
  fst (Api.listDriveFiles pageToken query env w) = Throw e →
  let w' := snd (fetchFiles pageToken query env w) in
  files (st w') = files (st w)
  ∧ nextPageToken (st w') = nextPageToken (st w)
  ∧ selectedFiles (st w') = selectedFiles (st w)
  ∧ prevTokens (st w') = prevTokens (st w)
  ∧ loading (st w') = false
  ∧ console_errors (new_events w w') = [("Failed to fetch drive files:", e)].
Proof.
  intros Hfail. cbv zeta.
  rewrite (fetchFiles_failure_state pageToken query env w e Hfail). cbn [snd st].
  rewrite new_events_app. repeat split; reflexivity.
Qed.

Lemma failed_listing_keeps_page_witness :
  fst (Api.listDriveFiles (Some "t1") (Some Js.empty) Scenario.offline Scenario.picker_opened)
  = Throw (TypeError "Failed to fetch")
  ∧ files (st (snd (fetchFiles (Some "t1") (Some Js.empty) Scenario.offline
                        Scenario.picker_opened)))
    = files (st Scenario.picker_opened)
  ∧ nextPageToken (st (snd (fetchFiles (Some "t1") (Some Js.empty) Scenario.offline
                                Scenario.picker_opened)))
    = nextPageToken (st Scenario.picker_opened)
  ∧ selectedFiles (st (snd (fetchFiles (Some "t1") (Some Js.empty) Scenario.offline
                                Scenario.picker_opened)))
    = selectedFiles (st Scenario.picker_opened)
  ∧ prevTokens (st (snd (fetchFiles (Some "t1") (Some Js.empty) Scenario.offline
                             Scenario.picker_opened)))
    = prevTokens (st Scenario.picker_opened)
  ∧ loading (st (snd (fetchFiles (Some "t1") (Some Js.empty) Scenario.offline
                          Scenario.picker_opened))) = false
  ∧ console_errors
      (new_events Scenario.picker_opened
         (snd (fetchFiles (Some "t1") (Some Js.empty) Scenario.offline
                 Scenario.picker_opened)))
    = [("Failed to fetch drive files:", TypeError "Failed to fetch")].
Proof.
  split; [reflexivity|].
  apply (failed_listing_keeps_page (Some "t1") (Some Js.empty) Scenario.offline
           Scenario.picker_opened (TypeError "Failed to fetch")).
  reflexivity.
Defined.

Lemma fetchFiles_success_state (pageToken query : option string) (env : Env)
    (w : World State) (res : Response) (fields : list (string * JSON))
    (page : list DriveFile.t) (token : option string) :
  net env (trace w) (Api.drive_files_request pageToken query) = Resolves res →
  ok res = true →
  body res = Some (JObj fields) →
  files_or_empty (Js.obj_get "files" fields) = Some page →
  as_optional_string (Js.obj_get "nextPageToken" fields) = Some token →
  fetchFiles pageToken query env w
  = (Ok tt,
     mkWorld (mkState page false (searchQuery (st w)) (selectedFiles (st w))
                      (importing (st w)) token (prevTokens (st w)))
             (trace w ++ [EvFetch (Api.drive_files_request pageToken query) (Resolves res)])).
Proof.
  intros Hnet Hok Hbody Hfiles Htoken.
  unfold fetchFiles. unfold bind at 1. unfold setLoading at 1, modify at 1.
  set (w0 := mkWorld _ (trace w)).
  unfold try_finally, try_catch. unfold bind at 1.
  rewrite (ApiFacts.listDriveFiles_run pageToken query env w0).
  change (trace w0) with (trace w). rewrite Hnet.
  unfold checked, parsed. rewrite Hok, Hbody.
  unfold lift_result, Js.get_prop. unfold bind at 1. unfold bind at 1.
  rewrite Hfiles. unfold typed at 1. unfold ret at 1.
  unfold bind at 1. unfold setFiles at 1, modify at 1.
  unfold bind at 1. unfold bind at 1. rewrite Htoken.
  unfold typed, ret, setNextPageToken, setLoading, modify. reflexivity.
Qed.

(** X14.  A listing answered with a 2xx JSON object replaces the page by the
    [files] member of the object and the next-page token by its
    [nextPageToken] member, keeps selection and history, and logs nothing.  An
    object without a [files] member gives the empty page, shown as "No files
    found". *)
Theorem successful_listing_replaces_page (pageToken query : option string) (env : Env)
    (w : World State) (res : Response) (fields : list (string * JSON))
    (page : list DriveFile.t) (token : option string) :
  net env (trace w) (Api.drive_files_request pageToken query) = Resolves res →
  ok res = true →
  body res = Some (JObj fields) →
  files_or_empty (Js.obj_get "files" fields) = Some page →
  as_optional_string (Js.obj_get "nextPageToken" fields) = Some token →
  let w' := snd (fetchFiles pageToken query env w) in
  files (st w') = page
  ∧ nextPageToken (st w') = token
  ∧ selectedFiles (st w') = selectedFiles (st w)
  ∧ prevTokens (st w') = prevTokens (st w)
  ∧ loading (st w') = false
  ∧ console_errors (new_events w w') = []
  ∧ (Js.obj_get "files" fields = None →
     files (st w') = [] ∧ render_file_list (st w') = NoFilesFound).
Proof.
  intros Hnet Hok Hbody Hfiles Htoken. cbv zeta.
  rewrite (fetchFiles_success_state pageToken query env w res fields page token
             Hnet Hok Hbody Hfiles Htoken).
  cbn [snd st]. rewrite new_events_app.
  repeat (split; [reflexivity|]).
  intros Hnone. rewrite Hnone in Hfiles. injection Hfiles as <-.
  split; reflexivity.
Qed.

Lemma successful_listing_replaces_page_witness :
  net Scenario.env (trace Scenario.picker_opened)
      (Api.drive_files_request (Some "t2") None)
  = Resolves (mkResponse 200 (Some (Scenario.listing [Scenario.ledger] None)))
  ∧ ok (mkResponse 200 (Some (Scenario.listing [Scenario.ledger] None))) = true
  ∧ files (st (snd (fetchFiles (Some "t2") None Scenario.env Scenario.picker_opened)))
    = [Scenario.ledger]
  ∧ nextPageToken (st (snd (fetchFiles (Some "t2") None Scenario.env Scenario.picker_opened)))
    = None
  ∧ selectedFiles (st (snd (fetchFiles (Some "t2") None Scenario.env Scenario.picker_opened)))
    = selectedFiles (st Scenario.picker_opened)
  ∧ prevTokens (st (snd (fetchFiles (Some "t2") None Scenario.env Scenario.picker_opened)))
    = prevTokens (st Scenario.picker_opened)
  ∧ loading (st (snd (fetchFiles (Some "t2") None Scenario.env Scenario.picker_opened)))
    = false
  ∧ console_errors
      (new_events Scenario.picker_opened
         (snd (fetchFiles (Some "t2") None Scenario.env Scenario.picker_opened))) = []
  ∧ (Js.obj_get "files" [("files", JArr (map Scenario.json_of_drive_file [Scenario.ledger]))]
     = None →
     files (st (snd (fetchFiles (Some "t2") None Scenario.env Scenario.picker_opened))) = []
     ∧ render_file_list
         (st (snd (fetchFiles (Some "t2") None Scenario.env Scenario.picker_opened)))
       = NoFilesFound).
Proof.
  split; [reflexivity|]. split; [reflexivity|].
  apply (successful_listing_replaces_page (Some "t2") None Scenario.env
           Scenario.picker_opened
           (mkResponse 200 (Some (Scenario.listing [Scenario.ledger] None)))
           [("files", JArr (map Scenario.json_of_drive_file [Scenario.ledger]))]
           [Scenario.ledger] None); reflexivity.
Defined.

Lemma pop_None {A} (l : list A) : pop l = None → l = [].
Proof.
  destruct l as [|x l]; [reflexivity|]. simpl.
  destruct (pop l) as [[? ?]|]; discriminate.
Qed.

(** X15.  The guards of the two pagination handlers agree with the
    [disabled] attribute of their buttons: where the button is disabled the
    handler changes nothing and sends nothing; where it is enabled the
    handler sends exactly one listing request and moves the history by one
    entry. *)
Theorem navigation_guards_match_buttons (env : Env) (w : World State) :
  (next_disabled (st w) = true → dispatch handleNextPage env w = (Ok tt, w))
  ∧ (next_disabled (st w) = false →
     length (fetches (new_events w (after handleNextPage env w))) = 1%nat
     ∧ length (prevTokens (st (after handleNextPage env w)))
       = S (length (prevTokens (st w))))
  ∧ (prev_disabled (st w) = true → dispatch handlePrevPage env w = (Ok tt, w))
  ∧ (prev_disabled (st w) = false →
     length (fetches (new_events w (after handlePrevPage env w))) = 1%nat
     ∧ S (length (prevTokens (st (after handlePrevPage env w))))
       = length (prevTokens (st w))).
Proof.
  unfold next_disabled, prev_disabled, after.
  split; [|split; [|split]].
  - unfold dispatch, handleNextPage.
    destruct (nextPageToken (st w)) as [token|]; [|reflexivity].
    destruct (Js.truthy_string token); [discriminate|reflexivity].
  - destruct (nextPageToken (st w)) as [token|] eqn:Htok; [|discriminate].
    destruct (Js.truthy_string token) eqn:Htruthy; [|discriminate]. intros _.
    assert (token ≠ Js.empty) as Hne by (intros ->; discriminate Htruthy).
    destruct (handleNextPage_run env w token Htok Hne) as (r & w' & Hrun & Hf & Hp & _).
    rewrite Hrun. cbn [snd]. rewrite Hf, Hp, length_app. simpl. split; [reflexivity|lia].
  - intros Hlen. apply Nat.eqb_eq in Hlen.
    unfold dispatch, handlePrevPage.
    destruct (prevTokens (st w)); [reflexivity|discriminate].
  - intros Hlen. apply Nat.eqb_neq in Hlen.
    destruct (pop (prevTokens (st w))) as [[rest token]|] eqn:Hpop.
    + apply pop_Some in Hpop.
      destruct (handlePrevPage_run env w rest token Hpop) as (r & w' & Hrun & Hf & Hp & _).
      rewrite Hrun. cbn [snd]. rewrite Hf, Hp, Hpop, length_app. simpl.
      split; [reflexivity|lia].
    + apply pop_None in Hpop. rewrite Hpop in Hlen. by destruct Hlen.
Qed.

(** X16.  Ticking a file sends nothing and flips the membership of that one
    id in the selection, leaving every other id as it was; ticking it twice
    gives back the selection one started with. *)
Theorem toggleSelect_flips_one_id (fileId : string) (env : Env) (w : World State) :
  let w1 := after (toggleSelect fileId) env w in
  trace w1 = trace w
  ∧ (fileId ∈ selectedFiles (st w1) ↔ fileId ∉ selectedFiles (st w))
  ∧ (∀ x, x ≠ fileId → (x ∈ selectedFiles (st w1) ↔ x ∈ selectedFiles (st w)))
  ∧ files (st w1) = files (st w)
  ∧ prevTokens (st w1) = prevTokens (st w)
  ∧ selectedFiles (st (after (toggleSelect fileId) env w1)) = selectedFiles (st w).
Proof.
  cbv zeta. unfold after, dispatch, toggleSelect, setSelectedFiles, modify.
  cbn [snd st trace selectedFiles files prevTokens].
  split; [reflexivity|].
  destruct (decide (fileId ∈ selectedFiles (st w))) as [Hin|Hout].
  - rewrite (bool_decide_eq_true_2 _ Hin).
    assert (fileId ∉ selectedFiles (st w) ∖ {[fileId]}) as Hgone by set_solver.
    rewrite (bool_decide_eq_false_2 _ Hgone).
    split; [set_solver|]. split; [set_solver|]. split; [reflexivity|].
    split; [reflexivity|].
    apply set_eq. intros x. destruct (decide (x = fileId)) as [->|Hx]; set_solver.
  - rewrite (bool_decide_eq_false_2 _ Hout).
    assert (fileId ∈ selectedFiles (st w) ∪ {[fileId]}) as Hnow by set_solver.
    rewrite (bool_decide_eq_true_2 _ Hnow).
    split; [set_solver|]. split; [set_solver|]. split; [reflexivity|].
    split; [reflexivity|]. set_solver.
Qed.

Lemma filesToImport_nil_iff (s : State) :
  filesToImport s = [] ↔ ∀ f, f ∈ files s → DriveFile.id f ∉ selectedFiles s.
Proof.
  split.
  - intros Hnil f Hf Hsel.
    assert (f ∈ filesToImport s) as Hin by (apply elem_of_filesToImport; auto).
    rewrite Hnil in Hin. by apply not_elem_of_nil in Hin.
  - intros Hnone. destruct (filesToImport s) as [|f batch] eqn:Hbatch; [reflexivity|].
    assert (f ∈ filesToImport s) as Hin by (rewrite Hbatch; by left).
    apply elem_of_filesToImport in Hin as [Hf Hsel]. by destruct (Hnone f Hf).
Qed.

(** X17.  The import handler acts exactly when a file of the page on display
    is selected.  If none is (nothing selected, or only files of other
    pages), a click on "Import Selected" sends nothing, calls neither
    callback, so the dialog stays open, and leaves the state as it is. *)
Theorem import_acts_iff_displayed_file_selected (env : Env) (w : World State) :
  (new_events w (after handleImport env w) = []
   ↔ ∀ f, f ∈ files (st w) → DriveFile.id f ∉ selectedFiles (st w))
  ∧ ((∀ f, f ∈ files (st w) → DriveFile.id f ∉ selectedFiles (st w)) →
     dispatch handleImport env w = (Ok tt, w)).
Proof.
  rewrite <- filesToImport_nil_iff. unfold after.
  split; [split|].
  - intros Hquiet. destruct (filesToImport (st w)) as [|f batch] eqn:Hbatch; [reflexivity|].
    assert (filesToImport (st w) ≠ []) as Hne by (rewrite Hbatch; discriminate).
    destruct (handleImport_run env w Hne) as (s' & evs & Hrun & _ & _ & _ & _ & Hcb & _).
    rewrite Hrun in Hquiet. cbn [snd] in Hquiet. rewrite new_events_app in Hquiet.
    rewrite Hquiet in Hcb. discriminate Hcb.
  - intros Hnil. rewrite (handleImport_nothing env w Hnil). cbn [snd].
    apply new_events_refl.
  - apply handleImport_nothing.
Qed.

(** The scenario of X17: one file is selected, the button is enabled, and the
    click does nothing. *)
Example import_button_enabled_but_idle :
  size (selectedFiles (st Scenario.selection_left_behind)) = 1%nat
  ∧ import_disabled (st Scenario.selection_left_behind) = false
  ∧ dispatch handleImport Scenario.env Scenario.selection_left_behind
    = (Ok tt, Scenario.selection_left_behind).
Proof. vm_compute. auto. Qed.

Lemma handleImport_final_state (env : Env) (w : World State) :
  filesToImport (st w) ≠ [] →
  st (after handleImport env w)
  = mkState (files (st w)) (loading (st w)) (searchQuery (st w)) (selectedFiles (st w))
            false (nextPageToken (st w)) (prevTokens (st w)).
Proof.
  intros Hne. unfold after, dispatch, handleImport.
  destruct (filesToImport (st w)) as [|f batch] eqn:Hbatch; [done|].
  cbn [length Nat.eqb].
  unfold bind at 1. unfold setImporting at 1, modify at 1.
  unfold bind at 1.
  set (w0 := mkWorld _ (trace w)).
  destruct (import_loop_run (f :: batch) 0 0 env w0) as (evs & Hloop & _).
  rewrite Hloop. cbn [fst snd st trace Nat.add].
  unfold bind at 1. unfold setImporting at 1, modify at 1. cbn [st trace].
  destruct (0 <? failures evs)%nat; unfold_monad; reflexivity.
Qed.

(** X18.  An import, however its calls end, leaves the page, the selection,
    the search text and the pagination state as they were, and the
    [importing] flag is down when the handler settles. *)
Theorem import_keeps_page_and_selection (env : Env) (w : World State) :
  let s' := st (after handleImport env w) in
  files s' = files (st w)
  ∧ selectedFiles s' = selectedFiles (st w)
  ∧ searchQuery s' = searchQuery (st w)
  ∧ nextPageToken s' = nextPageToken (st w)
  ∧ prevTokens s' = prevTokens (st w)
  ∧ loading s' = loading (st w)
  ∧ importing s' = (if bool_decide (filesToImport (st w) = []) then importing (st w) else false).
Proof.
  cbv zeta. destruct (decide (filesToImport (st w) = [])) as [Hnil|Hne].
  - rewrite (bool_decide_eq_true_2 _ Hnil). unfold after.
    rewrite (handleImport_nothing env w Hnil). repeat split; reflexivity.
  - rewrite (bool_decide_eq_false_2 _ Hne).
    rewrite (handleImport_final_state env w Hne). repeat split; reflexivity.
Qed.

(** X19.  A page that holds only folders is not the empty page: the dialog
    renders a list with no row, not the "No files found" message. *)
Theorem folders_only_page_renders_no_row (s : State) :
  loading s = false →
  (0 < length (files s))%nat →
  forallb (fun f => isFolder (DriveFile.mimeType f)) (files s) = true →
  render_file_list s = Rows [].
Proof.
  intros Hload Hlen Hall. unfold render_file_list. rewrite Hload.
  assert ((length (files s) =? 0)%nat = false) as -> by (apply Nat.eqb_neq; lia).
  f_equal.
  assert (List.filter (fun f => negb (isFolder (DriveFile.mimeType f))) (files s) = []) as ->;
    [|reflexivity].
  clear Hload Hlen. induction (files s) as [|f l IH]; [reflexivity|].
  simpl in Hall. apply andb_true_iff in Hall as [Hf Hl].
  simpl. rewrite Hf. simpl. by apply IH.
Qed.

Lemma folders_only_page_renders_no_row_witness :
  loading Scenario.folders_only = false
  ∧ (0 < length (files Scenario.folders_only))%nat
  ∧ forallb (fun f => isFolder (DriveFile.mimeType f)) (files Scenario.folders_only) = true
  ∧ render_file_list Scenario.folders_only = Rows [].
Proof.
  split; [reflexivity|]. split; [simpl; lia|]. split; [reflexivity|].
  apply (folders_only_page_renders_no_row Scenario.folders_only);
    [reflexivity | simpl; lia | reflexivity].
Defined.

Lemma NoDup_map_filter {A B} `{EqDecision B} (f : A → B) (p : A → bool) (l : list A) :
  NoDup (map f l) → NoDup (map f (List.filter p l)).
Proof.
  induction l as [|x l IH]; simpl; [done|].
  intros Hnd. apply NoDup_cons in Hnd as [Hx Hl].
  destruct (p x); simpl; [|by apply IH].
  apply NoDup_cons. split; [|by apply IH].
  intros Hin. apply Hx.
  apply list_elem_of_In, in_map_iff in Hin as (y & Hy & Hin).
  apply filter_In in Hin as [Hin _].
  apply list_elem_of_In, in_map_iff. eauto.
Qed.

(** X20.  When the ids of the page on display are pairwise different, the
    batch is never larger than the number shown as "file(s) selected". *)
Theorem batch_no_larger_than_selection (s : State) :
  bool_decide (NoDup (map DriveFile.id (files s))) = true →
  (length (filesToImport s) ≤ size (selectedFiles s))%nat.
Proof.
  intros Hnd. apply bool_decide_eq_true in Hnd.
  assert (NoDup (map DriveFile.id (filesToImport s))) as Hbatch.
  { unfold filesToImport. by apply NoDup_map_filter. }
  rewrite <- (length_map DriveFile.id (filesToImport s)).
  rewrite <- (size_list_to_set (C := gset string) _ Hbatch).
  apply subseteq_size. intros x Hx.
  apply elem_of_list_to_set, list_elem_of_In, in_map_iff in Hx as (f & <- & Hf).
  apply list_elem_of_In, elem_of_filesToImport in Hf as [_ Hsel]. exact Hsel.
Qed.

Lemma batch_no_larger_than_selection_witness :
  bool_decide (NoDup (map DriveFile.id (files (st Scenario.selected_across_pages)))) = true
  ∧ (length (filesToImport (st Scenario.selected_across_pages))
     ≤ size (selectedFiles (st Scenario.selected_across_pages)))%nat.
Proof.
  split; [vm_compute; reflexivity|].
  apply (batch_no_larger_than_selection (st Scenario.selected_across_pages)).
  vm_compute. reflexivity.
Defined.

End PickerProperties.

(** ** The events of the picker *)

Section EventProperties.
Import DriveFilePicker PickerFacts PickerNavigation PickerImport PickerSession.

Lemma placeholders_of_forallb (l : list string) :
  forallb (String.eqb Js.empty) l = true → Forall (eq Js.empty) l.
Proof.
  induction l as [|x l IH]; simpl; [intros _; apply Forall_nil_2|].
  intros H. apply andb_true_iff in H as [Hx Hl].
  apply Forall_cons. split; [by apply String.eqb_eq|by apply IH].
Qed.

Lemma new_events_same_trace {σ} (w w' : World σ) : trace w' = trace w → new_events w w' = [].
Proof. intros H. unfold new_events. rewrite H. apply drop_all. Qed.

Lemma listing_request_is_picker_endpoint (pageToken query : option string) :
  picker_endpoint (Api.drive_files_request pageToken query).
Proof. left. split; reflexivity. Qed.

Lemma one_listing_is_picker_endpoint (pageToken query : option string) :
  Forall picker_endpoint [Api.drive_files_request pageToken query].
Proof.
  apply Forall_cons. split; [apply listing_request_is_picker_endpoint|apply Forall_nil_2].
Qed.

(** X21.  The handling of one event of the dialog (typing, search, next,
    previous, a row's checkbox, import), from a state whose pagination
    history holds only first-page placeholders, ends in such a state again
    and calls no endpoint other than the Drive listing and the Drive import,
    whatever the backend answers.  From such a state a click on "Previous"
    that does anything refetches without page token. *)
Theorem picker_event_keeps_placeholder_history (ev : UserEvent) (env : Env)
    (w : World State) :
  forallb (String.eqb Js.empty) (prevTokens (st w)) = true →
  let w' := after (on_event ev) env w in
  Forall (eq Js.empty) (prevTokens (st w'))
  ∧ Forall picker_endpoint (fetches (new_events w w'))
  ∧ (ev = ClickPrevious →
     fetches (new_events w w')
     = (if prev_disabled (st w) then []
        else [Api.drive_files_request None (Some (searchQuery (st w)))])).
Proof.
  intros Hbool. apply placeholders_of_forallb in Hbool as Hprev. cbv zeta.
  assert (∀ w0 : World State,
            st w0 = st w ∨ prevTokens (st w0) = prevTokens (st w) →
            trace w0 = trace w →
            Forall (eq Js.empty) (prevTokens (st w0))
            ∧ Forall picker_endpoint (fetches (new_events w w0))) as Hidle.
  { intros w0 Hst Htr. rewrite (new_events_same_trace w w0 Htr).
    split; [|apply Forall_nil_2]. destruct Hst as [-> | ->]; exact Hprev. }
  unfold after, dispatch. destruct ev as [text| | | |fileId|]; cbn [on_event].
  - destruct (Hidle (snd (setSearchQuery text env w))) as [H1 H2];
      [right; reflexivity | reflexivity |].
    split; [exact H1|]. split; [exact H2|discriminate].
  - destruct (handleSearch_run env w) as (r & w' & Hrun & Hf & Hp & _).
    unfold dispatch in Hrun. rewrite Hrun. cbn [snd]. rewrite Hf, Hp.
    split; [apply Forall_nil_2|]. split; [apply one_listing_is_picker_endpoint|discriminate].
  - destruct (next_disabled (st w)) eqn:Hdis.
    + destruct (Hidle w) as [H1 H2]; [by left | reflexivity |].
      cbn [snd]. split; [exact H1|]. split; [exact H2|discriminate].
    + unfold next_disabled in Hdis.
      destruct (nextPageToken (st w)) as [token|] eqn:Htok; [|discriminate].
      destruct (Js.truthy_string token) eqn:Htruthy; [|discriminate].
      assert (token ≠ Js.empty) as Hne by (intros ->; discriminate Htruthy).
      destruct (handleNextPage_run env w token Htok Hne) as (r & w' & Hrun & Hf & Hp & _).
      unfold dispatch in Hrun. rewrite Hrun. cbn [snd]. rewrite Hf, Hp.
      split; [|split; [apply one_listing_is_picker_endpoint|discriminate]].
      apply Forall_app. split; [exact Hprev|].
      apply Forall_cons. split; [reflexivity|apply Forall_nil_2].
  - destruct (prev_disabled (st w)) eqn:Hdis.
    + destruct (Hidle w) as [H1 H2]; [by left | reflexivity |].
      cbn [snd]. split; [exact H1|]. split; [exact H2|].
      intros _. by rewrite new_events_refl.
    + unfold prev_disabled in Hdis. apply Nat.eqb_neq in Hdis.
      destruct (pop (prevTokens (st w))) as [[rest token]|] eqn:Hpop.
      * apply pop_Some in Hpop.
        destruct (handlePrevPage_run env w rest token Hpop) as (r & w' & Hrun & Hf & Hp & _).
        unfold dispatch in Hrun. rewrite Hrun. cbn [snd]. rewrite Hf, Hp.
        rewrite Hpop in Hprev. apply Forall_app in Hprev as [Hrest Hlast].
        apply Forall_cons in Hlast as [<- _].
        split; [exact Hrest|]. split; [apply one_listing_is_picker_endpoint|].
        intros _. reflexivity.
      * apply pop_None in Hpop. rewrite Hpop in Hdis. by destruct Hdis.
  - destruct (bool_decide (fileId ∈ displayed_ids (st w))).
    + destruct (Hidle (snd (toggleSelect fileId (st w) env w))) as [H1 H2];
        [right; reflexivity | reflexivity |].
      split; [exact H1|]. split; [exact H2|discriminate].
    + destruct (Hidle w) as [H1 H2]; [by left | reflexivity |].
      cbn [snd]. split; [exact H1|]. split; [exact H2|discriminate].
  - destruct (import_disabled (st w)).
    { destruct (Hidle w) as [H1 H2]; [by left | reflexivity |].
      cbn [snd]. split; [exact H1|]. split; [exact H2|discriminate]. }
    destruct (decide (filesToImport (st w) = [])) as [Hnil|Hne].
    + pose proof (handleImport_nothing env w Hnil) as Hrun.
      unfold dispatch in Hrun. rewrite Hrun.
      destruct (Hidle w) as [H1 H2]; [by left | reflexivity |].
      cbn [snd]. split; [exact H1|]. split; [exact H2|discriminate].
    + pose proof (handleImport_final_state env w Hne) as Hstate.
      destruct (handleImport_run env w Hne) as (s' & evs & Hrun & Hf & _).
      unfold after in Hstate. rewrite Hrun in Hstate. cbn [snd st] in Hstate.
      unfold dispatch in Hrun. rewrite Hrun. cbn [snd st]. subst s'.
      rewrite new_events_app, Hf. cbn [prevTokens].
      split; [exact Hprev|]. split; [|discriminate].
      apply Forall_forall. intros req Hin.
      apply list_elem_of_fmap in Hin as (f & -> & _). right. split; reflexivity.
Qed.

Lemma picker_event_keeps_placeholder_history_witness :
  forallb (String.eqb Js.empty) (prevTokens (st Scenario.on_page_three)) = true
  ∧ Forall (eq Js.empty)
           (prevTokens (st (after (on_event ClickPrevious) Scenario.env
                              Scenario.on_page_three)))
  ∧ Forall picker_endpoint
           (fetches (new_events Scenario.on_page_three
                       (after (on_event ClickPrevious) Scenario.env Scenario.on_page_three)))
  ∧ (ClickPrevious = ClickPrevious →
     fetches (new_events Scenario.on_page_three
                (after (on_event ClickPrevious) Scenario.env Scenario.on_page_three))
     = (if prev_disabled (st Scenario.on_page_three) then []
        else [Api.drive_files_request None
                (Some (searchQuery (st Scenario.on_page_three)))])).
Proof.
  split; [vm_compute; reflexivity|].
  apply (picker_event_keeps_placeholder_history ClickPrevious Scenario.env
           Scenario.on_page_three).
  vm_compute. reflexivity.
Defined.

End EventProperties.
